(** * Verification of [src/sst/overrides/nextsite.js]

    A shallow embedding of the SST override module that defines
    [CustomEdgeFunction] and [NextSite].  Synthesis code builds a CDK
    construct tree by side effect; the embedding threads that tree through a
    small state-and-exception monad.  Methods inherited from SST base classes
    (which are not part of this module) are collected in interface classes and
    stay abstract; a theorem that needs more of an inherited method than its
    type says so in a hypothesis. *)

From Stdlib Require Import String Ascii List Arith Lia QArith.
From stdpp Require Import gmap strings list fin_maps.

Open Scope string_scope.
Open Scope list_scope.

(* ===================================================================== *)
(** * Part I.  Data model                                                  *)
(* ===================================================================== *)

(** A construct is addressed by the list of ids from the app root down to
    it: [scope ++ [id]] is the node made by [new X(scope, id, ...)]. *)
Abbreviation path := (list string).

(** CDK tokens: values that are only known at deploy time and are passed
    around symbolically at synthesis time. *)
Inductive Token : Type :=
| Literal (s : string)
| Region (stack : path)                         (* Stack.of(c).region *)
| BucketName (bucket : path)                    (* bucket.bucketName *)
| QueueUrl (queue : path)                       (* queue.queueUrl *)
| FunctionArn (fn : path)                       (* fn.functionArn *)
| FunctionUrl (fn : path)                       (* fn.addFunctionUrl(..).url *)
| ParseDomainName (t : Token)                   (* Fn.parseDomainName(t) *)
| GetAttString (res : path) (attr : string)     (* res.getAttString(attr) *)
| CurrentVersion (fn : path).                   (* fn.currentVersion *)

(** IAM principals that can be granted something: [fn.role]. *)
Inductive Role : Type :=
| RoleOf (fn : path).

(** Resource ARNs appearing in IAM statements. *)
Inductive Resource : Type :=
| AnyResource                                   (* "*" *)
| ArnForObjects (bucket : path) (keyPattern : string)  (* bucket.arnForObjects(p) *)
| ArnOfFunction (fn : path).                    (* fn.functionArn *)

Inductive Effect : Type := ALLOW | DENY.

(** [new PolicyStatement({effect, actions, resources})]; CDK defaults
    [effect] to [Effect.ALLOW] when the property is left out. *)
Record PolicyStatement : Type := mkPolicyStatement {
  effect : Effect;
  actions : list string;
  resources : list Resource
}.

Inductive Runtime : Type := NODEJS_16_X | NODEJS_18_X | RuntimeName (s : string).
Inductive Architecture : Type := ARM_64 | X86_64.
Inductive RetentionDays : Type := THREE_DAYS.
Inductive RemovalPolicy : Type := DESTROY.
Inductive FunctionUrlAuthType : Type := AWS_IAM | NONE.

(** [CdkDuration.seconds(n)] and [CdkDuration.minutes(n)], kept in seconds. *)
Inductive Duration : Type := Seconds (n : nat).
Definition CdkDuration_seconds (n : nat) : Duration := Seconds n.
Definition CdkDuration_minutes (n : nat) : Duration := Seconds (60 * n).

(** [path.join(a, b, ...)]: the segments are kept as they were given. *)
Definition path_join (segments : list string) : list string := segments.

(** The directory of the module, [__dirname]. *)
Definition dirname : string := "__dirname".

Inductive Code : Type :=
| Code_fromAsset (dir : list string)
| Code_fromInline (source : string)
| Code_s3Location (bucket key : Token).

(** A property of a JS object.  An object either lacks the property, or has
    it with the value [undefined], or has it with a value.  Reading either of
    the first two gives [undefined]; a spread tells them apart, because it
    copies a property that is there even when its value is [undefined]. *)
Inductive Field (A : Type) : Type :=
| Absent
| Undefined
| Value (a : A).
Arguments Absent {A}.
Arguments Undefined {A}.
Arguments Value {A} a.

(** [o.p], with [None] for [undefined]. *)
Definition fieldValue {A : Type} (f : Field A) : option A :=
  match f with
  | Value a => Some a
  | Absent | Undefined => None
  end.

(** [{ p: x }] where [x] may be [undefined]: the property is there. *)
Definition ofOption {A : Type} (x : option A) : Field A :=
  match x with
  | Some a => Value a
  | None => Undefined
  end.

(** One property of a JS object spread: [{...a, ...b}] has [b]'s property
    when [b] has one, whatever its value, and [a]'s otherwise. *)
Definition spreadField {A : Type} (a b : Field A) : Field A :=
  match b with
  | Absent => a
  | Undefined | Value _ => b
  end.

(** A JS number. *)
Inductive JsNumber : Type :=
| Finite (q : Q)
| NaN
| Infinity (negative : bool).

(** An integer as a JS number. *)
Definition number (z : Z) : JsNumber := Finite (inject_Z z).

(** A memory size as SST takes it: a size string or a number of MB. *)
Inductive MemorySetting : Type :=
| MemoryString (s : string)
| MemoryNumber (n : JsNumber).

(** Properties given to [new CdkFunction], [new SsrFunction] and
    [new EdgeFunction]. *)
Record FunctionProps : Type := mkFunctionProps {
  description : Field string;
  handler : Field string;
  code : Field Code;
  runtime : Field Runtime;
  timeout : Field Duration;
  memorySize : Field MemorySetting;
  architecture : Field Architecture;
  logRetention : Field RetentionDays;
  currentVersionOptions : Field RemovalPolicy;
  environment : Field (gmap string Token);
  initialPolicy : Field (list PolicyStatement);
  bundle : Field (list string);
  bind : Field (list path);
  permissions : Field (list PolicyStatement)
}.

(** [{}] *)
Definition noFunctionProps : FunctionProps :=
  mkFunctionProps Absent Absent Absent Absent Absent Absent Absent Absent Absent
    Absent Absent Absent Absent Absent.

(** [{...base, ...over}] on function properties. *)
Definition spreadFunctionProps (base over : FunctionProps) : FunctionProps :=
  {| description := spreadField (description base) (description over);
     handler := spreadField (handler base) (handler over);
     code := spreadField (code base) (code over);
     runtime := spreadField (runtime base) (runtime over);
     timeout := spreadField (timeout base) (timeout over);
     memorySize := spreadField (memorySize base) (memorySize over);
     architecture := spreadField (architecture base) (architecture over);
     logRetention := spreadField (logRetention base) (logRetention over);
     currentVersionOptions :=
       spreadField (currentVersionOptions base) (currentVersionOptions over);
     environment := spreadField (environment base) (environment over);
     initialPolicy := spreadField (initialPolicy base) (initialPolicy over);
     bundle := spreadField (bundle base) (bundle over);
     bind := spreadField (bind base) (bind over);
     permissions := spreadField (permissions base) (permissions over) |}.

Inductive FunctionClass : Type := CdkFunction | SsrFunction | EdgeFunction.

(** [new SqsEventSource(queue, { batchSize })]. *)
Record SqsEventSource : Type := mkSqsEventSource {
  source_queue : path;
  batchSize : nat
}.

(** A function construct: the properties it was made with and the state its
    methods mutate afterwards. *)
Record LambdaFunction : Type := mkLambdaFunction {
  fn_class : FunctionClass;
  fn_props : FunctionProps;
  fn_environment : gmap string Token;        (* addEnvironment *)
  fn_eventSources : list SqsEventSource;     (* addEventSource *)
  fn_functionUrl : option FunctionUrlAuthType; (* addFunctionUrl *)
  fn_permissions : list PolicyStatement      (* attachPermissions *)
}.

(** [new Queue(scope, id, { fifo, receiveMessageWaitTime })] together with
    the principals that [grantSendMessages] has been called with. *)
Record QueueState : Type := mkQueue {
  fifo : bool;
  receiveMessageWaitTime : option Duration;
  sendMessagesGrants : list Role
}.

(** The logical id of a CloudFormation resource: the one CDK allocates from
    the construct path, or the argument of [overrideLogicalId].  The only
    override in this module is the lazy string of [createVersionInUsEast1];
    its producer closure captures [fn] and [originalLogicalId]. *)
Inductive LogicalId : Type :=
| Lazy_uncachedString (fn : path) (originalLogicalId : string).

(** [new CustomResource(scope, id, { serviceToken, resourceType, properties })]
    with the logical-id override of its default child. *)
Record CustomResourceState : Type := mkCustomResource {
  serviceToken : Token;
  resourceType : string;
  properties : gmap string Token;
  logicalIdOverride : option LogicalId
}.

(** ** Behaviors and distributions *)

Inductive ViewerProtocolPolicy : Type := REDIRECT_TO_HTTPS | HTTPS_ONLY | ALLOW_ALL_PROTOCOLS.
Inductive AllowedMethods : Type := ALLOW_ALL | ALLOW_GET_HEAD | ALLOW_GET_HEAD_OPTIONS.
Inductive CachedMethods : Type := CACHE_GET_HEAD | CACHE_GET_HEAD_OPTIONS.
Inductive LambdaEdgeEventType : Type :=
  ORIGIN_REQUEST | ORIGIN_RESPONSE | VIEWER_REQUEST | VIEWER_RESPONSE.

(** Origins: [new HttpOrigin(domain)], or whatever an inherited builder or
    the caller has put there. *)
Inductive Origin : Type :=
| HttpOrigin (domainName : Token)
| OriginRef (name : string).

(** Cache and response-headers policies are objects made elsewhere.  A
    cache policy is known by its identity, or by the request headers it
    forwards into the cache key. *)
Inductive CachePolicy : Type :=
| CachePolicyRef (name : string)
| ForwardingPolicy (headers : list string).
Inductive ResponseHeadersPolicy : Type := ResponseHeadersPolicyRef (name : string).

Record EdgeLambda : Type := mkEdgeLambda {
  includeBody : bool;
  eventType : LambdaEdgeEventType;
  functionVersion : Token
}.

(** CloudFront [BehaviorOptions]. *)
Record Behavior : Type := mkBehavior {
  viewerProtocolPolicy : option ViewerProtocolPolicy;
  origin : Origin;
  allowedMethods : option AllowedMethods;
  cachedMethods : option CachedMethods;
  compress : option bool;
  cachePolicy : option CachePolicy;
  responseHeadersPolicy : option ResponseHeadersPolicy;
  edgeLambdas : list EdgeLambda
}.

(** The CloudFront distribution properties, [props.cdk.distribution] on the
    way in and [cdk.distribution] of [new Distribution] on the way out.
    [otherDistributionProps] stands for every property this module does not
    name. *)
Record CfDistributionProps : Type := mkCfDistributionProps {
  defaultRootObject : Field string;
  defaultBehavior : option Behavior;
  additionalBehaviors : option (gmap string Behavior);
  otherDistributionProps : gmap string string
}.

(** [{}] *)
Definition emptyDistributionProps : CfDistributionProps :=
  mkCfDistributionProps Absent None None ∅.

(** [new Distribution(scope, "CDN", { scopeOverride, customDomain, cdk })]. *)
Record DistributionProps : Type := mkDistributionProps {
  scopeOverride : path;
  dist_customDomain : option string;
  cdk_distribution : CfDistributionProps
}.

(** ** The site object *)

Record RegionalProps : Type := mkRegionalProps {
  enableServerUrlIamAuth : option bool
}.

Record ImageOptimization : Type := mkImageOptimization {
  io_memorySize : option MemorySetting
}.

(** [props.cdk] *)
Record Cdk : Type := mkCdk {
  distribution : option CfDistributionProps;
  revalidation : option FunctionProps;
  server : option FunctionProps;
  serverCachePolicy : option CachePolicy;
  cdk_responseHeadersPolicy : option ResponseHeadersPolicy
}.

Definition noCdk : Cdk := mkCdk None None None None None.

(** The properties of a [NextSite]. *)
Record NextSiteProps : Type := mkNextSiteProps {
  buildCommand : Field string;
  props_path : string;
  props_runtime : option Runtime;
  props_timeout : option Duration;
  props_memorySize : option MemorySetting;
  props_bind : option (list path);
  props_permissions : option (list PolicyStatement);
  props_environment : option (gmap string Token);
  customDomain : option string;
  cdk : option Cdk;
  regional : option RegionalProps;
  imageOptimization : option ImageOptimization
}.

(** [this] inside the methods of [NextSite]: where the site sits in the
    construct tree, and the fields the methods read. *)
Record NextSite : Type := mkNextSite {
  site_node : path;                         (* this, used as a scope *)
  site_stack : path;                        (* Stack.of(this) *)
  props : NextSiteProps;                    (* this.props *)
  bucket : path;                            (* this.bucket *)
  serverLambdaForRegional : option path;    (* this.serverLambdaForRegional *)
  serverLambdaForEdge : option path         (* this.serverLambdaForEdge *)
}.

(** [this] inside the methods of [CustomEdgeFunction]. *)
Record CustomEdgeFunction : Type := mkCustomEdgeFunction {
  node_id : string;                         (* this.node.id *)
  scope : path;                             (* this.scope *)
  edge_stack : path                         (* Stack.of(this) *)
}.

(** ** The construct tree *)

Inductive Construct : Type :=
| FunctionConstruct (f : LambdaFunction)
| QueueConstruct (q : QueueState)
| CustomResourceConstruct (r : CustomResourceState)
| DistributionConstruct (d : DistributionProps)
| OtherConstruct (kind : string).

(** The closures pushed on [this.deferredTaskCallbacks], one constructor per
    closure of the source, holding what the closure captures. *)
Inductive DeferredTask : Type :=
| Task_createRevalidation (this : NextSite)
| Task_updateImageFunctionCode (fn : path) (sitePath : string).

(** The state of a synthesis pass. *)
Record World : Type := mkWorld {
  tree : gmap path Construct;
  deferredTaskCallbacks : list DeferredTask
}.

Definition setTree (f : gmap path Construct -> gmap path Construct) (w : World) : World :=
  {| tree := f (tree w); deferredTaskCallbacks := deferredTaskCallbacks w |}.

(** ** Synthesis monad: state plus JS exceptions *)

Inductive Error : Type :=
| AlreadyExists (p : path)   (* a construct with this name is already in the scope *)
| TypeError (p : path)       (* a method was called on something that lacks it *)
| Inherited (msg : string).  (* thrown by inherited or external code *)

Inductive Result (A : Type) : Type :=
| Ok (a : A)
| Throw (e : Error).
Arguments Ok {A} a.
Arguments Throw {A} e.

Definition M (A : Type) : Type := World -> Result (A * World).

Definition ret {A : Type} (a : A) : M A := fun w => Ok (a, w).

Definition andThen {A B : Type} (c : M A) (k : A -> M B) : M B :=
  fun w =>
    match c w with
    | Ok (a, w') => k a w'
    | Throw e => Throw e
    end.

Definition throw {A : Type} (e : Error) : M A := fun _ => Throw e.

Declare Scope synth_scope.
Delimit Scope synth_scope with synth.
Notation "x <- c ;; k" := (andThen c (fun x => k))
  (at level 100, c at next level, right associativity) : synth_scope.
Notation "c ;;; k" := (andThen c (fun _ => k))
  (at level 100, right associativity) : synth_scope.
Open Scope synth_scope.

(** [new X(scope, id, ...)]: the construct registers itself under [scope];
    the construct library throws when the scope already has a child named
    [id]. *)
Definition newConstruct (scope : path) (id : string) (c : Construct) : M path :=
  fun w =>
    let p := scope ++ [id] in
    match tree w !! p with
    | Some _ => Throw (AlreadyExists p)
    | None => Ok (p, setTree (insert p c) w)
    end.

(** [scope.node.tryFindChild(id)] *)
Definition tryFindChild (scope : path) (id : string) : M (option path) :=
  fun w =>
    match tree w !! (scope ++ [id]) with
    | Some _ => Ok (Some (scope ++ [id]), w)
    | None => Ok (None, w)
    end.

(** [new CdkFunction(scope, id, props)] and [new EdgeFunction(scope, id,
    props)]: the function starts with the environment of its properties. *)
Definition newFunction (cls : FunctionClass) (scope : path) (id : string)
    (p : FunctionProps) : M path :=
  newConstruct scope id
    (FunctionConstruct
       {| fn_class := cls;
          fn_props := p;
          fn_environment := default ∅ (fieldValue (environment p));
          fn_eventSources := [];
          fn_functionUrl := None;
          fn_permissions := [] |}).

(** What the constructors of two SST constructs do beyond registering the
    construct is SST's business and a parameter here.  [new SsrFunction]
    decides the environment its function starts with (SST adds entries of its
    own to those of the properties); [new Distribution] creates further
    constructs under [props.scopeOverride] (the CloudFront distribution
    itself, and more for a custom domain). *)
Class SstConstructs : Type := {
  SsrFunction_environment : FunctionProps -> gmap string Token;
  Distribution_children : DistributionProps -> list (string * Construct)
}.

(** [new SsrFunction(scope, id, props)] *)
Definition newSsrFunction `{SstConstructs} (scope : path) (id : string)
    (p : FunctionProps) : M path :=
  newConstruct scope id
    (FunctionConstruct
       {| fn_class := SsrFunction;
          fn_props := p;
          fn_environment := SsrFunction_environment p;
          fn_eventSources := [];
          fn_functionUrl := None;
          fn_permissions := [] |}).

(** One [new X(scope, id, ...)] after another under the same scope. *)
Fixpoint newConstructs (scope : path) (children : list (string * Construct)) : M unit :=
  match children with
  | [] => ret tt
  | (id, c) :: rest => newConstruct scope id c ;;; newConstructs scope rest
  end.

(** [new Distribution(scope, id, props)] *)
Definition newDistribution `{SstConstructs} (scope : path) (id : string)
    (props : DistributionProps) : M path :=
  dist <- newConstruct scope id (DistributionConstruct props) ;;
  newConstructs (scopeOverride props) (Distribution_children props) ;;;
  ret dist.

(** A method of a function object: it mutates the function the reference
    points to. *)
Definition updateFunction (fn : path) (f : LambdaFunction -> LambdaFunction) : M unit :=
  fun w =>
    match tree w !! fn with
    | Some (FunctionConstruct l) =>
        Ok (tt, setTree (insert fn (FunctionConstruct (f l))) w)
    | _ => Throw (TypeError fn)
    end.

(** [fn.addEnvironment(key, value)] *)
Definition addEnvironment (fn : path) (key : string) (value : Token) : M unit :=
  updateFunction fn (fun l =>
    {| fn_class := fn_class l;
       fn_props := fn_props l;
       fn_environment := <[key := value]> (fn_environment l);
       fn_eventSources := fn_eventSources l;
       fn_functionUrl := fn_functionUrl l;
       fn_permissions := fn_permissions l |}).

(** [fn.addEventSource(source)] *)
Definition addEventSource (fn : path) (source : SqsEventSource) : M unit :=
  updateFunction fn (fun l =>
    {| fn_class := fn_class l;
       fn_props := fn_props l;
       fn_environment := fn_environment l;
       fn_eventSources := fn_eventSources l ++ [source];
       fn_functionUrl := fn_functionUrl l;
       fn_permissions := fn_permissions l |}).

(** [fn.addFunctionUrl({ authType })]; the result's [url] is a token.  The
    URL is a child construct named [FunctionUrl], so a function that has one
    cannot be given another. *)
Definition addFunctionUrl (fn : path) (authType : FunctionUrlAuthType) : M Token :=
  fun w =>
    match tree w !! fn with
    | Some (FunctionConstruct l) =>
        match fn_functionUrl l with
        | Some _ => Throw (AlreadyExists (fn ++ ["FunctionUrl"]))
        | None =>
            Ok (FunctionUrl fn,
                setTree (insert fn (FunctionConstruct
                  {| fn_class := fn_class l;
                     fn_props := fn_props l;
                     fn_environment := fn_environment l;
                     fn_eventSources := fn_eventSources l;
                     fn_functionUrl := Some authType;
                     fn_permissions := fn_permissions l |})) w)
        end
    | _ => Throw (TypeError fn)
    end.

(** [fn.attachPermissions(statements)] *)
Definition attachPermissions (fn : path) (statements : list PolicyStatement) : M unit :=
  updateFunction fn (fun l =>
    {| fn_class := fn_class l;
       fn_props := fn_props l;
       fn_environment := fn_environment l;
       fn_eventSources := fn_eventSources l;
       fn_functionUrl := fn_functionUrl l;
       fn_permissions := fn_permissions l ++ statements |}).

(** [queue.grantSendMessages(grantee)] *)
Definition grantSendMessages (queue : path) (grantee : option Role) : M unit :=
  fun w =>
    match tree w !! queue, grantee with
    | Some (QueueConstruct q), Some r =>
        Ok (tt, setTree (insert queue (QueueConstruct
              {| fifo := fifo q;
                 receiveMessageWaitTime := receiveMessageWaitTime q;
                 sendMessagesGrants := sendMessagesGrants q ++ [r] |})) w)
    | _, _ => Throw (TypeError queue)
    end.

(** [this.deferredTaskCallbacks.push(task)] *)
Definition pushDeferredTask (task : DeferredTask) : M unit :=
  fun w =>
    Ok (tt, {| tree := tree w;
               deferredTaskCallbacks := deferredTaskCallbacks w ++ [task] |}).

(* ===================================================================== *)
(** * Part II.  The module                                                 *)
(* ===================================================================== *)

(** ** What [CustomEdgeFunction] inherits from SST's [EdgeFunction] *)

(** [calculateHash(fn)] renders the function resource and digests it; the
    digest is a parameter, applied to the state the resource has when the
    lazy string is resolved.  [allocateLogicalId] is the logical id CDK
    derives from a construct path when nothing overrides it. *)
Class EdgeFunctionBase : Type := {
  calculateHash : Construct -> string;
  allocateLogicalId : path -> string
}.

(** [s.substring(start)] *)
Fixpoint substring_from (start : nat) (s : string) : string :=
  match start, s with
  | O, _ => s
  | S n, String _ rest => substring_from n rest
  | S _, EmptyString => EmptyString
  end.

(** Modelled from the spec: [trimFromStart] is a method of SST's
    [EdgeFunction] and is not part of this module.  The spec (sections 3 and
    4.1) has the base identifier trimmed from its start, never from its end,
    keeping the trailing characters, down to the room that is left for the
    suffix. *)
Definition trimFromStart (s : string) (maxLength : nat) : string :=
  let desiredLength := Nat.min maxLength (String.length s) in
  let newStart := String.length s - desiredLength in
  substring_from newStart s.

(** [Stack.of(c).resolve(cfn.logicalId)] for the default child of the custom
    resource at [res].  A lazy string is produced at the moment of resolution
    and never cached: the producer of [createVersionInUsEast1] (lines 65-69)
    reads [fn] as it is then. *)
Definition resolveLogicalId `{EdgeFunctionBase} (res : path) : M string :=
  fun w =>
    match tree w !! res with
    | Some (CustomResourceConstruct r) =>
        match logicalIdOverride r with
        | None => Ok (allocateLogicalId (res ++ ["Default"]), w)
        | Some (Lazy_uncachedString fn originalLogicalId) =>
            match tree w !! fn with
            | Some c =>
                let hash := calculateHash c in
                let logicalId := trimFromStart originalLogicalId (255 - 32) in
                Ok (logicalId +:+ hash, w)
            | None => Throw (TypeError fn)
            end
        end
    | _ => Throw (TypeError res)
    end.

(** [cfn.overrideLogicalId(id)] *)
Definition overrideLogicalId (res : path) (id : LogicalId) : M unit :=
  fun w =>
    match tree w !! res with
    | Some (CustomResourceConstruct r) =>
        Ok (tt, setTree (insert res (CustomResourceConstruct
              {| serviceToken := serviceToken r;
                 resourceType := resourceType r;
                 properties := properties r;
                 logicalIdOverride := Some id |})) w)
    | _ => Throw (TypeError res)
    end.

(** The object [createVersionInUsEast1] returns. *)
Record VersionRecord : Type := mkVersionRecord {
  version : path;
  versionId : Token
}.

Definition providerId : string := "EdgeLambdaVersionProvider".

Definition resId (this : CustomEdgeFunction) : string :=
  node_id this +:+ "EdgeLambdaVersion".

(** The properties of the provider function (lines 34-47). *)
Definition providerProps : FunctionProps :=
  {| description := Absent;
     handler := Value "edge-lambda-version.handler";
     code := Value (Code_fromAsset (path_join [dirname; "./sst/support/edge-function"]));
     runtime := Value NODEJS_16_X;
     timeout := Value (CdkDuration_minutes 15);
     memorySize := Value (MemoryNumber (number 1024));
     architecture := Absent;
     logRetention := Absent;
     currentVersionOptions := Absent;
     environment := Absent;
     initialPolicy :=
       Value [ {| effect := ALLOW;
                 actions := ["lambda:*"];
                 resources := [AnyResource] |} ];
     bundle := Absent;
     bind := Absent;
     permissions := Absent |}.

(** [CustomEdgeFunction.createVersionInUsEast1(fn, fnArn)], lines 26-72. *)
Definition createVersionInUsEast1 `{EdgeFunctionBase}
    (this : CustomEdgeFunction) (fn : path) (fnArn : Token) : M VersionRecord :=
  let stack := edge_stack this in
  found <- tryFindChild stack providerId ;;
  provider <- match found with
              | Some p => ret p
              | None => newFunction CdkFunction stack providerId providerProps
              end ;;
  version <- newConstruct (scope this) (resId this)
               (CustomResourceConstruct
                  {| serviceToken := FunctionArn provider;
                     resourceType := "Custom::SSTEdgeLambdaVersion";
                     properties := {[ "FunctionArn" := fnArn ]};
                     logicalIdOverride := None |}) ;;
  let cfn := version in
  originalLogicalId <- resolveLogicalId cfn ;;
  overrideLogicalId cfn (Lazy_uncachedString fn originalLogicalId) ;;;
  ret {| version := version; versionId := GetAttString version "Version" |}.

(** ** What [NextSite] inherits from SST's [SsrSite] *)

(** The inherited methods this module calls, on top of the SST constructs
    it instantiates.  The methods run in the same synthesis pass, so each is a
    computation over the construct tree.  [toCdkSize(s).toMebibytes()] throws
    on a size string it cannot read. *)
Class SsrSiteBase : Type := {
  SsrSiteBase_constructs :: SstConstructs;
  SsrSite_constructor : path -> string -> NextSiteProps -> M NextSite;
  buildDefaultBehaviorForRegional : NextSite -> M Behavior;
  buildDefaultBehaviorForEdge : NextSite -> M Behavior;
  super_useServerBehaviorCachePolicy : NextSite -> list string -> M CachePolicy;
  useServerUrlSigningFunction : NextSite -> M path;
  toCdkSize_toMebibytes : string -> Result JsNumber
}.

(** [a || b] on object references. *)
Definition orElse {A : Type} (a b : option A) : option A :=
  match a with
  | Some x => Some x
  | None => b
  end.

(** [x?.method(...)]: nothing happens when [x] is undefined. *)
Definition optionalCall {A : Type} (x : option A) (method : A -> M unit) : M unit :=
  match x with
  | Some a => method a
  | None => ret tt
  end.

(** [new NextSite(scope, id, props)], lines 76-84. *)
Definition NextSite_constructor `{SsrSiteBase}
    (scope : path) (id : string) (props : NextSiteProps) : M NextSite :=
  this <- SsrSite_constructor scope id
            {| buildCommand :=
                 spreadField (Value "npx --yes open-next@2.1.5 build") (buildCommand props);
               props_path := props_path props;
               props_runtime := props_runtime props;
               props_timeout := props_timeout props;
               props_memorySize := props_memorySize props;
               props_bind := props_bind props;
               props_permissions := props_permissions props;
               props_environment := props_environment props;
               customDomain := customDomain props;
               cdk := cdk props;
               regional := regional props;
               imageOptimization := imageOptimization props |} ;;
  pushDeferredTask (Task_createRevalidation this) ;;;
  ret this.

(** The properties of the revalidation consumer before [cdk.revalidation] is
    spread over them (lines 94-98). *)
Definition revalidationFunctionProps (this : NextSite) : FunctionProps :=
  {| description := Value "Next.js revalidator";
     handler := Value "index.handler";
     code := Value (Code_fromAsset
               (path_join [props_path (props this); ".open-next"; "revalidation-function"]));
     runtime := Value NODEJS_18_X;
     timeout := Value (CdkDuration_seconds 30);
     memorySize := Absent;
     architecture := Absent;
     logRetention := Absent;
     currentVersionOptions := Absent;
     environment := Absent;
     initialPolicy := Absent;
     bundle := Absent;
     bind := Absent;
     permissions := Absent |}.

(** [NextSite.createRevalidation()], lines 85-107. *)
Definition createRevalidation (this : NextSite) : M unit :=
  match serverLambdaForRegional this, serverLambdaForEdge this with
  | None, None => ret tt
  | _, _ =>
      let cdk := cdk (props this) in
      queue <- newConstruct (site_node this) "RevalidationQueue"
                 (QueueConstruct
                    {| fifo := true;
                       receiveMessageWaitTime := Some (CdkDuration_seconds 20);
                       sendMessagesGrants := [] |}) ;;
      consumer <- newFunction CdkFunction (site_node this) "RevalidationFunction"
                    (spreadFunctionProps (revalidationFunctionProps this)
                       (default noFunctionProps (cdk ≫= revalidation))) ;;
      addEventSource consumer {| source_queue := queue; batchSize := 5 |} ;;;
      let server := orElse (serverLambdaForRegional this) (serverLambdaForEdge this) in
      optionalCall server (fun s => addEnvironment s "REVALIDATION_QUEUE_URL" (QueueUrl queue)) ;;;
      optionalCall server (fun s =>
        addEnvironment s "REVALIDATION_QUEUE_REGION" (Region (site_stack this))) ;;;
      grantSendMessages queue (RoleOf <$> server)
  end.

(** [NextSite.initBuildConfig()], lines 108-119. *)
Record BuildConfig : Type := mkBuildConfig {
  typesPath : string;
  serverBuildOutputFile : string;
  clientBuildOutputDir : string;
  clientBuildVersionedSubDir : string;
  clientBuildS3KeyPrefix : string;
  prerenderedBuildOutputDir : string;
  prerenderedBuildS3KeyPrefix : string;
  warmerFunctionAssetPath : list string
}.

Definition initBuildConfig (this : NextSite) : BuildConfig :=
  {| typesPath := ".";
     serverBuildOutputFile := ".open-next/server-function/index.mjs";
     clientBuildOutputDir := ".open-next/assets";
     clientBuildVersionedSubDir := "_next";
     clientBuildS3KeyPrefix := "_assets";
     prerenderedBuildOutputDir := ".open-next/cache";
     prerenderedBuildS3KeyPrefix := "_cache";
     warmerFunctionAssetPath :=
       path_join [props_path (props this); ".open-next/warmer-function"] |}.

(** The environment both server functions are created with (lines 131-136
    and 150-155): the caller's entries, then the three cache-bucket entries. *)
Definition serverEnvironment (this : NextSite) : gmap string Token :=
  <["CACHE_BUCKET_REGION" := Region (site_stack this)]>
    (<["CACHE_BUCKET_KEY_PREFIX" := Literal "_cache"]>
       (<["CACHE_BUCKET_NAME" := BucketName (bucket this)]>
          (default ∅ (props_environment (props this))))).

(** [NextSite.createFunctionForRegional()], lines 120-139. *)
Definition createFunctionForRegional `{SstConstructs} (this : NextSite) : M path :=
  let cdk := cdk (props this) in
  newSsrFunction (site_node this) "ServerFunction"
    (spreadFunctionProps
       {| description := Value "Next.js server";
          bundle := Value (path_join [props_path (props this); ".open-next"; "server-function"]);
          handler := Value "index.handler";
          runtime := ofOption (props_runtime (props this));
          timeout := ofOption (props_timeout (props this));
          memorySize := ofOption (props_memorySize (props this));
          bind := ofOption (props_bind (props this));
          permissions := ofOption (props_permissions (props this));
          environment := Value (serverEnvironment this);
          code := Absent;
          architecture := Absent;
          logRetention := Absent;
          currentVersionOptions := Absent;
          initialPolicy := Absent |}
       (default noFunctionProps (cdk ≫= server))).

(** [NextSite.createFunctionForEdge()], lines 140-157. *)
Definition createFunctionForEdge (this : NextSite) : M path :=
  newFunction EdgeFunction (site_node this) "ServerFunction"
    {| description := Absent;
       bundle := Value (path_join [props_path (props this); ".open-next"; "server-function"]);
       handler := Value "index.handler";
       runtime := ofOption (props_runtime (props this));
       timeout := ofOption (props_timeout (props this));
       memorySize := ofOption (props_memorySize (props this));
       bind := ofOption (props_bind (props this));
       permissions := ofOption (props_permissions (props this));
       environment := Value (serverEnvironment this);
       code := Absent;
       architecture := Absent;
       logRetention := Absent;
       currentVersionOptions := Absent;
       initialPolicy := Absent |}.

(** JS truthiness of a number: zero and [NaN] are falsy. *)
Definition truthyNumber (n : JsNumber) : bool :=
  match n with
  | Finite q => negb (Qeq_bool q 0)
  | NaN => false
  | Infinity _ => true
  end.

(** JS truthiness of [imageOptimization.memorySize]: the empty string is
    falsy too. *)
Definition truthy (m : MemorySetting) : bool :=
  match m with
  | MemoryString s => negb (String.eqb s "")
  | MemoryNumber n => truthyNumber n
  end.

(** The [memorySize] expression of lines 169-173.  It throws what
    [toCdkSize] throws. *)
Definition imageMemorySize `{SsrSiteBase}
    (imageOptimization : option ImageOptimization) : Result JsNumber :=
  match imageOptimization ≫= io_memorySize with
  | Some m =>
      if truthy m then
        match m with
        | MemoryString s => toCdkSize_toMebibytes s
        | MemoryNumber n => Ok n
        end
      else Ok (number 1536)
  | None => Ok (number 1536)
  end.

(** An expression that may throw, as a step of the pass. *)
Definition evaluate {A : Type} (r : Result A) : M A :=
  fun w =>
    match r with
    | Ok a => Ok (a, w)
    | Throw e => Throw e
    end.

(** The properties of the image function (lines 160-186), given the value of
    the [memorySize] expression. *)
Definition imageFunctionProps (this : NextSite) (memory : JsNumber) : FunctionProps :=
  {| description := Value "Next.js image optimizer";
     handler := Value "index.handler";
     code := Value (Code_fromInline "export function handler() {}");
     runtime := Value NODEJS_18_X;
     timeout := Value (CdkDuration_seconds 25);
     memorySize := Value (MemoryNumber memory);
     architecture := Value ARM_64;
     logRetention := Value THREE_DAYS;
     currentVersionOptions := Value DESTROY;
     environment :=
       Value (<["BUCKET_KEY_PREFIX" := Literal "_assets"]>
               (<["BUCKET_NAME" := BucketName (bucket this)]> ∅));
     initialPolicy :=
       Value [ {| effect := ALLOW;
                 actions := ["s3:GetObject"];
                 resources := [ArnForObjects (bucket this) "*"] |} ];
     bundle := Absent;
     bind := Absent;
     permissions := Absent |}.

(** [NextSite.createImageOptimizationFunction()], lines 158-200.  The
    property values are evaluated before the constructor runs. *)
Definition createImageOptimizationFunction `{SsrSiteBase} (this : NextSite) : M path :=
  let sitePath := props_path (props this) in
  memory <- evaluate (imageMemorySize (imageOptimization (props this))) ;;
  fn <- newFunction CdkFunction (site_node this) "ImageFunction"
          (imageFunctionProps this memory) ;;
  pushDeferredTask (Task_updateImageFunctionCode fn sitePath) ;;;
  ret fn.

(** The closure of lines 188-198, run after the build: the function's code
    becomes the built asset. *)
Definition updateImageFunctionCode (fn : path) (sitePath : string) : M unit :=
  updateFunction fn (fun l =>
    {| fn_class := fn_class l;
       fn_props :=
         spreadFunctionProps (fn_props l)
           {| description := Absent; handler := Absent;
              code := Value (Code_fromAsset
                        (path_join [sitePath; ".open-next/image-optimization-function"]));
              runtime := Absent; timeout := Absent; memorySize := Absent;
              architecture := Absent; logRetention := Absent;
              currentVersionOptions := Absent; environment := Absent;
              initialPolicy := Absent; bundle := Absent; bind := Absent;
              permissions := Absent |};
       fn_environment := fn_environment l;
       fn_eventSources := fn_eventSources l;
       fn_functionUrl := fn_functionUrl l;
       fn_permissions := fn_permissions l |}).

(** Running one deferred callback. *)
Definition runDeferredTask (task : DeferredTask) : M unit :=
  match task with
  | Task_createRevalidation this => createRevalidation this
  | Task_updateImageFunctionCode fn sitePath => updateImageFunctionCode fn sitePath
  end.

(** The header names of lines 302-306. *)
Definition serverCacheHeaders : list string :=
  [ "accept"; "rsc"; "next-router-prefetch"; "next-router-state-tree"; "next-url" ].

(** [NextSite.useServerBehaviorCachePolicy()], lines 300-308. *)
Definition useServerBehaviorCachePolicy `{SsrSiteBase} (this : NextSite) : M CachePolicy :=
  super_useServerBehaviorCachePolicy this serverCacheHeaders.

(** The request headers a cache policy forwards into the cache key, when
    the policy says so itself. *)
Definition cacheKeyHeaders (p : CachePolicy) : option (list string) :=
  match p with
  | ForwardingPolicy headers => Some headers
  | CachePolicyRef _ => None
  end.

(** Modelled from the spec: the inherited [useServerBehaviorCachePolicy] is
    not in this repository.  The spec says the cache-policy selection
    "forwards a fixed allow-list of request attributes ... into the cache key
    computation": whenever the inherited method returns a policy, the policy
    forwards the headers the method was given, whatever else the method does
    to the construct tree. *)
Definition forwardsAllowedHeaders `{SsrSiteBase} : Prop :=
  forall (this : NextSite) (allowedHeaders : list string) (w w' : World) (p : CachePolicy),
    super_useServerBehaviorCachePolicy this allowedHeaders w = Ok (p, w') ->
    cacheKeyHeaders p = Some allowedHeaders.

(** Modelled from the spec: the least such method, which makes the policy
    and nothing else. *)
Definition SsrSite_useServerBehaviorCachePolicy
    (this : NextSite) (allowedHeaders : list string) : M CachePolicy :=
  ret (ForwardingPolicy allowedHeaders).

(** [regional?.enableServerUrlIamAuth] used as a condition. *)
Definition serverUrlIamAuth (this : NextSite) : bool :=
  match regional (props this) ≫= enableServerUrlIamAuth with
  | Some b => b
  | None => false
  end.

(** [NextSite.buildImageBehavior()], lines 309-344. *)
Definition buildImageBehavior `{SsrSiteBase} (this : NextSite) : M Behavior :=
  let cdk := cdk (props this) in
  imageFn <- createImageOptimizationFunction this ;;
  imageFnUrl <- addFunctionUrl imageFn (if serverUrlIamAuth this then AWS_IAM else NONE) ;;
  policy <- match cdk ≫= serverCachePolicy with
            | Some p => ret p
            | None => useServerBehaviorCachePolicy this
            end ;;
  lambdas <- (if serverUrlIamAuth this then
                fn <- useServerUrlSigningFunction this ;;
                attachPermissions fn
                  [ {| effect := ALLOW;
                       actions := ["lambda:InvokeFunctionUrl"];
                       resources := [ArnOfFunction imageFn] |} ] ;;;
                ret [ {| includeBody := true;
                         eventType := ORIGIN_REQUEST;
                         functionVersion := CurrentVersion fn |} ]
              else ret []) ;;
  ret {| viewerProtocolPolicy := Some REDIRECT_TO_HTTPS;
         origin := HttpOrigin (ParseDomainName imageFnUrl);
         allowedMethods := Some ALLOW_ALL;
         cachedMethods := Some CACHE_GET_HEAD_OPTIONS;
         compress := Some true;
         cachePolicy := Some policy;
         responseHeadersPolicy := cdk ≫= cdk_responseHeadersPolicy;
         edgeLambdas := lambdas |}.

(** [{...base, ...over}] on objects used as maps: [over] wins on the keys
    both have. *)
Definition spreadObject {V : Type} (base over : gmap string V) : gmap string V :=
  over ∪ base.

(** [cdk?.distribution || {}] *)
Definition cfDistributionPropsOf (this : NextSite) : CfDistributionProps :=
  default emptyDistributionProps (cdk (props this) ≫= distribution).

(** The object literal of lines 258-271 and 283-296, given the entries the
    module fixes. *)
Definition distributionLiteral (cfDistributionProps : CfDistributionProps)
    (serverBehavior : Behavior) (fixed : gmap string Behavior) : CfDistributionProps :=
  {| defaultRootObject := spreadField (Value "") (defaultRootObject cfDistributionProps);
     defaultBehavior := Some serverBehavior;
     additionalBehaviors :=
       Some (spreadObject fixed (default ∅ (additionalBehaviors cfDistributionProps)));
     otherDistributionProps := otherDistributionProps cfDistributionProps |}.

(** [NextSite.createCloudFrontDistributionForRegional()], lines 201-274. *)
Definition createCloudFrontDistributionForRegional `{SsrSiteBase} (this : NextSite) : M path :=
  let cfDistributionProps := cfDistributionPropsOf this in
  serverBehavior <- buildDefaultBehaviorForRegional this ;;
  imageBehavior <- buildImageBehavior this ;;
  newDistribution (site_node this) "CDN"
    {| scopeOverride := site_node this;
       dist_customDomain := customDomain (props this);
       cdk_distribution :=
         distributionLiteral cfDistributionProps serverBehavior
           (<["_next/image*" := imageBehavior]>
              (<["_next/data/*" := serverBehavior]>
                 (<["api/*" := serverBehavior]> ∅))) |}.

(** [NextSite.createCloudFrontDistributionForEdge()], lines 275-299. *)
Definition createCloudFrontDistributionForEdge `{SsrSiteBase} (this : NextSite) : M path :=
  let cfDistributionProps := cfDistributionPropsOf this in
  serverBehavior <- buildDefaultBehaviorForEdge this ;;
  newDistribution (site_node this) "CDN"
    {| scopeOverride := site_node this;
       dist_customDomain := customDomain (props this);
       cdk_distribution :=
         distributionLiteral cfDistributionProps serverBehavior
           (<["_next/data/*" := serverBehavior]>
              (<["api/*" := serverBehavior]> ∅)) |}.

(* ===================================================================== *)
(** * Part III.  Vocabulary of the statements                              *)
(* ===================================================================== *)

(** ** Versioning *)

(** Where [createVersionInUsEast1] puts the version resource and the
    provider. *)
Definition versionPath (this : CustomEdgeFunction) : path :=
  scope this ++ [resId this].

Definition providerPath (stack : path) : path :=
  stack ++ [providerId].

(** The provider function as [new CdkFunction(stack, providerId, ...)] leaves
    it. *)
Definition providerFunction : Construct :=
  FunctionConstruct
    {| fn_class := CdkFunction;
       fn_props := providerProps;
       fn_environment := ∅;
       fn_eventSources := [];
       fn_functionUrl := None;
       fn_permissions := [] |}.

(** The tree after the lookup-or-create of the provider. *)
Definition withProvider (stack : path) (w : World) : World :=
  match tree w !! providerPath stack with
  | Some _ => w
  | None => setTree (insert (providerPath stack) providerFunction) w
  end.

(** The version resource once its logical id has been overridden. *)
Definition versionResource `{EdgeFunctionBase}
    (this : CustomEdgeFunction) (fn : path) (fnArn : Token) : Construct :=
  CustomResourceConstruct
    {| serviceToken := FunctionArn (providerPath (edge_stack this));
       resourceType := "Custom::SSTEdgeLambdaVersion";
       properties := {[ "FunctionArn" := fnArn ]};
       logicalIdOverride :=
         Some (Lazy_uncachedString fn
                 (allocateLogicalId (versionPath this ++ ["Default"]))) |}.

(** The identifier the lazy string produces for a function in state [c]. *)
Definition versionIdentifier `{EdgeFunctionBase}
    (this : CustomEdgeFunction) (c : Construct) : string :=
  trimFromStart (allocateLogicalId (versionPath this ++ ["Default"])) (255 - 32)
    +:+ calculateHash c.

(** One call of [createVersionInUsEast1] after another, as the edge
    functions of one synthesis pass make them. *)
Fixpoint createVersions `{EdgeFunctionBase}
    (calls : list (CustomEdgeFunction * path * Token)) : M (list VersionRecord) :=
  match calls with
  | [] => ret []
  | (this, fn, fnArn) :: rest =>
      r <- createVersionInUsEast1 this fn fnArn ;;
      rs <- createVersions rest ;;
      ret (r :: rs)
  end.

Definition isFunction (c : Construct) : bool :=
  match c with
  | FunctionConstruct _ => true
  | _ => false
  end.

(** How many function constructs the tree holds. *)
Definition functionCount (w : World) : nat :=
  size (filter (fun kv => isFunction kv.2 = true) (tree w)).

(** The service token of the custom resource at [p]. *)
Definition serviceTokenAt (w : World) (p : path) : option Token :=
  match tree w !! p with
  | Some (CustomResourceConstruct r) => Some (serviceToken r)
  | _ => None
  end.

(** The last [n] characters of a string. *)
Definition lastChars (n : nat) (s : string) : string :=
  substring_from (String.length s - n) s.

(** Modelled from the spec: the primitive resource layer that deploys a
    synthesized stack is outside this module.  Spec section 6 has it key
    resources by logical identifier and decide create-versus-update by
    identifier equality; the comment above the override (lines 59-61) relies
    on the same rule.  [createsOnDeploy deployed w res] tells whether
    deploying the resource at [res], as synthesized in [w], onto a stack that
    already holds the logical ids [deployed] creates a new resource. *)
Definition createsOnDeploy `{EdgeFunctionBase}
    (deployed : gset string) (w : World) (res : path) : bool :=
  match resolveLogicalId res w with
  | Ok (id, _) => bool_decide (id ∉ deployed)
  | Throw _ => false
  end.

(** ** Revalidation *)

Definition revalidationQueuePath (this : NextSite) : path :=
  site_node this ++ ["RevalidationQueue"].


(** The render compute of a site: [this.serverLambdaForRegional ||
    this.serverLambdaForEdge]. *)
Definition renderCompute (this : NextSite) : option path :=
  orElse (serverLambdaForRegional this) (serverLambdaForEdge this).

(** The environment of the function at [fn]. *)
Definition environmentAt (w : World) (fn : path) : option (gmap string Token) :=
  match tree w !! fn with
  | Some (FunctionConstruct l) => Some (fn_environment l)
  | _ => None
  end.

(** ** Route tables *)

Inductive Topology : Type := Regional | EdgeReplicated.

(** The distribution a site gets in each topology. *)
Definition createCloudFrontDistribution `{SsrSiteBase}
    (topology : Topology) (this : NextSite) : M path :=
  match topology with
  | Regional => createCloudFrontDistributionForRegional this
  | EdgeReplicated => createCloudFrontDistributionForEdge this
  end.

(** The inherited builder of the server behavior in each topology. *)
Definition buildDefaultBehavior `{SsrSiteBase}
    (topology : Topology) (this : NextSite) : M Behavior :=
  match topology with
  | Regional => buildDefaultBehaviorForRegional this
  | EdgeReplicated => buildDefaultBehaviorForEdge this
  end.

(** The CloudFront properties of the distribution at [dist]. *)
Definition routeTable (w : World) (dist : path) : option CfDistributionProps :=
  match tree w !! dist with
  | Some (DistributionConstruct d) => Some (cdk_distribution d)
  | _ => None
  end.

(** The behavior a distribution has for a path pattern. *)
Definition routeOf (w : World) (dist : path) (pattern : string) : option Behavior :=
  d ← routeTable w dist ;
  behaviors ← additionalBehaviors d ;
  behaviors !! pattern.

(** The behaviors the caller supplied in [cdk.distribution.additionalBehaviors]. *)
Definition behaviorOverrides (this : NextSite) : gmap string Behavior :=
  default ∅ (additionalBehaviors (cfDistributionPropsOf this)).

Definition imageFunctionPath (this : NextSite) : path :=
  site_node this ++ ["ImageFunction"].




(** The property C4 asks of the edge topology, read on this module. *)
Definition edge_has_no_image_behavior : Prop :=
  forall (base : SsrSiteBase) (this : NextSite) (w w' : World) (dist : path),
    createCloudFrontDistributionForEdge this w = Ok (dist, w') ->
    routeOf w' dist "_next/image*" = None.

(** ** Storage access of the image function *)

(** IAM compares a resource pattern with a resource name character by
    character, except that [*] stands for any run of characters and [?] for
    any one. *)
Fixpoint wildcardMatch (pattern s : string) {struct pattern} : bool :=
  match pattern with
  | EmptyString =>
      match s with
      | EmptyString => true
      | String _ _ => false
      end
  | String c pattern' =>
      if Ascii.eqb c "*" then
        (fix star (s : string) : bool :=
           wildcardMatch pattern' s ||
           match s with
           | EmptyString => false
           | String _ s' => star s'
           end) s
      else
        match s with
        | EmptyString => false
        | String d s' => (Ascii.eqb c "?" || Ascii.eqb c d) && wildcardMatch pattern' s'
        end
  end.

(** Whether a statement resource covers the object [key] of [bucket]:
    [bucket.arnForObjects(p)] is the bucket's ARN, a slash and [p]. *)
Definition coversObject (bucket : path) (key : string) (r : Resource) : bool :=
  match r with
  | AnyResource => true
  | ArnForObjects b keyPattern => bool_decide (b = bucket) && wildcardMatch keyPattern key
  | ArnOfFunction _ => false
  end.

(** Whether the statements let their holder read the object [key] of
    [bucket] with [s3:GetObject]. *)
Definition grantsGetObject (statements : list PolicyStatement)
    (bucket : path) (key : string) : bool :=
  existsb (fun st =>
             match effect st with
             | ALLOW =>
                 existsb (fun a => wildcardMatch a "s3:GetObject") (actions st)
                 && existsb (coversObject bucket key) (resources st)
             | DENY => false
             end) statements.

(** The statements the function at [fn] was created with. *)
Definition initialPolicyAt (w : World) (fn : path) : list PolicyStatement :=
  match tree w !! fn with
  | Some (FunctionConstruct l) => default [] (fieldValue (initialPolicy (fn_props l)))
  | _ => []
  end.

(** The property C9 asks for, read on this module: the image function can
    read an object exactly when its key starts with [_assets]. *)
Definition image_function_reads_only_assets : Prop :=
  forall (base : SsrSiteBase) (this : NextSite) (w w' : World) (fn : path) (key : string),
    createImageOptimizationFunction this w = Ok (fn, w') ->
    (grantsGetObject (initialPolicyAt w' fn) (bucket this) key = true <->
     String.prefix "_assets" key = true).

(** ** Further vocabulary *)

(** Where both server-function creators put their function. *)
Definition serverFunctionPath (this : NextSite) : path :=
  site_node this ++ ["ServerFunction"].

(** Where both distribution creators put the distribution. *)
Definition cdnPath (this : NextSite) : path :=
  site_node this ++ ["CDN"].

(** The path patterns each topology fixes in its object literal. *)
Definition fixedPatterns (topology : Topology) : gset string :=
  match topology with
  | Regional => {[ "api/*"; "_next/data/*"; "_next/image*" ]}
  | EdgeReplicated => {[ "api/*"; "_next/data/*" ]}
  end.

(** The properties of the function at [fn]. *)
Definition functionPropsAt (w : World) (fn : path) : option FunctionProps :=
  match tree w !! fn with
  | Some (FunctionConstruct l) => Some (fn_props l)
  | _ => None
  end.

(** The statements attached to the function at [fn] after its creation. *)
Definition permissionsAt (w : World) (fn : path) : list PolicyStatement :=
  match tree w !! fn with
  | Some (FunctionConstruct l) => fn_permissions l
  | _ => []
  end.

(** The statement [buildImageBehavior] attaches to the signing function
    (lines 330-333). *)
Definition invokeImageFunctionUrl (this : NextSite) : PolicyStatement :=
  {| effect := ALLOW;
     actions := ["lambda:InvokeFunctionUrl"];
     resources := [ArnOfFunction (imageFunctionPath this)] |}.




(** The names of the three cache-bucket entries of a server function. *)
Definition cacheBucketKeys : gset string :=
  {[ "CACHE_BUCKET_NAME"; "CACHE_BUCKET_KEY_PREFIX"; "CACHE_BUCKET_REGION" ]}.


(** [createImageOptimizationFunction] returns, and the image function it
    has created has [memory] as its [memorySize]. *)
Definition imageFunctionCreatedWith `{base : SsrSiteBase}
    (this : NextSite) (w : World) (memory : JsNumber) : Prop :=
  exists w' p,
    createImageOptimizationFunction this w = Ok (imageFunctionPath this, w') /\
    functionPropsAt w' (imageFunctionPath this) = Some p /\
    memorySize p = Value (MemoryNumber memory).

(* ===================================================================== *)
(** * Part IV.  A sample application                                       *)
(* ===================================================================== *)

Module Sample.

(** A digest with the width of an MD5 hex string, told apart by the inline
    source of the function it is given. *)
Definition digest (c : Construct) : string :=
  match c with
  | FunctionConstruct l =>
      match code (fn_props l) with
      | Value (Code_fromInline "v2") => "22222222222222222222222222222222"
      | _ => "11111111111111111111111111111111"
      end
  | _ => "00000000000000000000000000000000"
  end.

Definition edgeBase : EdgeFunctionBase :=
  {| calculateHash := digest;
     allocateLogicalId := fun p => String.concat "" p +:+ "8A1B2C3D" |}.

(** The same, in a deep construct tree whose allocated ids are long. *)
Definition longBase : EdgeFunctionBase :=
  {| calculateHash := digest;
     allocateLogicalId := fun p =>
       let s := String.concat "" p in s +:+ s +:+ s +:+ s +:+ s +:+ "8A1B2C3D8A" |}.

Definition stack : path := ["App"; "Stack"].
Definition site : path := ["App"; "Stack"; "Site"].

(** The edge server function of the site and a second edge function. *)
Definition serverEdge : CustomEdgeFunction :=
  {| node_id := "ServerFunction"; scope := site; edge_stack := stack |}.
Definition signingEdge : CustomEdgeFunction :=
  {| node_id := "SigningFunction"; scope := site; edge_stack := stack |}.

Definition lambda (source : string) : Construct :=
  FunctionConstruct
    {| fn_class := CdkFunction;
       fn_props :=
         spreadFunctionProps noFunctionProps
           {| description := Absent; handler := Value "index.handler";
              code := Value (Code_fromInline source);
              runtime := Absent; timeout := Absent; memorySize := Absent;
              architecture := Absent; logRetention := Absent;
              currentVersionOptions := Absent; environment := Absent;
              initialPolicy := Absent; bundle := Absent; bind := Absent;
              permissions := Absent |};
       fn_environment := ∅;
       fn_eventSources := [];
       fn_functionUrl := None;
       fn_permissions := [] |}.

Definition fn : path := site ++ ["ServerFunction"; "Function"].

(** A pass in which the function to version has been declared. *)
Definition world0 : World :=
  {| tree := {[ fn := lambda "v1" ]}; deferredTaskCallbacks := [] |}.

(** The same pass after a rebuild changed the function. *)
Definition world0' : World :=
  {| tree := {[ fn := lambda "v2" ]}; deferredTaskCallbacks := [] |}.

Definition fnArn : Token := GetAttString fn "FunctionArn".

(** The record the first call returns, and the pass after it. *)
Definition record1 : VersionRecord :=
  {| version := versionPath serverEdge;
     versionId := GetAttString (versionPath serverEdge) "Version" |}.

Definition world1 : World :=
  setTree (insert (versionPath serverEdge)
             (@versionResource edgeBase serverEdge fn fnArn))
    (withProvider stack world0).

(** A later pass over the same application, whose tree already holds the
    server function of the site when the edge function is versioned. *)
Definition world2 : World :=
  {| tree := <[ site ++ ["Server"] := lambda "server" ]> {[ fn := lambda "v1" ]};
     deferredTaskCallbacks := [] |}.

Definition world3 : World :=
  setTree (insert (versionPath serverEdge)
             (@versionResource edgeBase serverEdge fn fnArn))
    (withProvider stack world2).

Definition world1' : World :=
  setTree (insert (versionPath serverEdge)
             (@versionResource edgeBase serverEdge fn fnArn))
    (withProvider stack world0').

(** ** A Next.js site *)

Definition serverBehavior : Behavior :=
  {| viewerProtocolPolicy := Some REDIRECT_TO_HTTPS;
     origin := OriginRef "ServerFunctionUrl";
     allowedMethods := Some ALLOW_ALL;
     cachedMethods := Some CACHE_GET_HEAD_OPTIONS;
     compress := Some true;
     cachePolicy := Some (CachePolicyRef "ServerCache");
     responseHeadersPolicy := None;
     edgeLambdas := [] |}.

(** A behavior of the caller's own. *)
Definition callerBehavior : Behavior :=
  {| viewerProtocolPolicy := Some HTTPS_ONLY;
     origin := OriginRef "CallerOrigin";
     allowedMethods := Some ALLOW_GET_HEAD;
     cachedMethods := None;
     compress := None;
     cachePolicy := None;
     responseHeadersPolicy := None;
     edgeLambdas := [] |}.

(** SST's constructs: a server function starts with three entries of SST's
    own on top of the environment it is given, and a distribution creates
    the CloudFront distribution under the scope it is told. *)
Definition constructs : SstConstructs :=
  {| SsrFunction_environment := fun p =>
       <["SST_APP" := Literal "app"]>
         (<["SST_STAGE" := Literal "dev"]>
            (<["SST_SSM_PREFIX" := Literal "/sst/app/dev/"]>
               (default ∅ (fieldValue (environment p)))));
     Distribution_children := fun _ =>
       [ ("Distribution", OtherConstruct "AWS::CloudFront::Distribution") ] |}.

(** A reader of size strings: digits, a space and [MB] or [GB]. *)
Definition digit (c : ascii) : option Z :=
  let n := nat_of_ascii c in
  if (48 <=? n)%nat && (n <=? 57)%nat then Some (Z.of_nat (n - 48)) else None.

Fixpoint readNumber (acc : option Z) (s : string) : option Z * string :=
  match s with
  | String c s' =>
      match digit c with
      | Some d => readNumber (Some (10 * default 0 acc + d)%Z) s'
      | None => (acc, s)
      end
  | EmptyString => (acc, s)
  end.

Definition toMebibytes (s : string) : Result JsNumber :=
  match readNumber None s with
  | (Some n, " MB") => Ok (number n)
  | (Some n, " GB") => Ok (number (1024 * n))
  | _ => Throw (Inherited "Invalid size")
  end.

(** Inherited methods that build nothing beyond what they return. *)
Definition siteBase : SsrSiteBase :=
  {| SsrSiteBase_constructs := constructs;
     SsrSite_constructor := fun scope id props =>
       ret {| site_node := scope ++ [id];
              site_stack := stack;
              props := props;
              bucket := scope ++ [id; "S3Bucket"];
              serverLambdaForRegional := None;
              serverLambdaForEdge := None |};
     buildDefaultBehaviorForRegional := fun _ => ret serverBehavior;
     buildDefaultBehaviorForEdge := fun _ => ret serverBehavior;
     super_useServerBehaviorCachePolicy := SsrSite_useServerBehaviorCachePolicy;
     useServerUrlSigningFunction := fun this =>
       newFunction EdgeFunction (site_node this) "ServerUrlSigningFunction" noFunctionProps;
     toCdkSize_toMebibytes := toMebibytes |}.



Definition siteProps (c : option Cdk) : NextSiteProps :=
  {| buildCommand := Absent;
     props_path := "web";
     props_runtime := Some NODEJS_18_X;
     props_timeout := Some (CdkDuration_seconds 10);
     props_memorySize := Some (MemoryNumber (number 1024));
     props_bind := None;
     props_permissions := None;
     props_environment := Some {[ "STAGE" := Literal "dev" ]};
     customDomain := None;
     cdk := c;
     regional := None;
     imageOptimization := None |}.

Definition bucketPath : path := site ++ ["S3Bucket"].
Definition serverPath : path := site ++ ["ServerFunction"].

(** A site without render compute, a regional site and an edge site. *)
Definition staticSite : NextSite :=
  {| site_node := site; site_stack := stack; props := siteProps None;
     bucket := bucketPath;
     serverLambdaForRegional := None; serverLambdaForEdge := None |}.

Definition regionalSite : NextSite :=
  {| site_node := site; site_stack := stack; props := siteProps None;
     bucket := bucketPath;
     serverLambdaForRegional := Some serverPath; serverLambdaForEdge := None |}.

Definition edgeSite : NextSite :=
  {| site_node := site; site_stack := stack; props := siteProps None;
     bucket := bucketPath;
     serverLambdaForRegional := None; serverLambdaForEdge := Some serverPath |}.

(** Sites whose caller overrides the [api/*] and [_next/image*] behaviors
    and offers a default behavior of their own. *)
Definition callerCdk : Cdk :=
  {| distribution :=
       Some {| defaultRootObject := Absent;
               defaultBehavior := Some callerBehavior;
               additionalBehaviors :=
                 Some (<["_next/image*" := callerBehavior]>
                         (<["api/*" := callerBehavior]> ∅));
               otherDistributionProps := ∅ |};
     revalidation := None;
     server := None;
     serverCachePolicy := None;
     cdk_responseHeadersPolicy := None |}.

Definition overriddenRegionalSite : NextSite :=
  {| site_node := site; site_stack := stack; props := siteProps (Some callerCdk);
     bucket := bucketPath;
     serverLambdaForRegional := Some serverPath; serverLambdaForEdge := None |}.

Definition overriddenEdgeSite : NextSite :=
  {| site_node := site; site_stack := stack; props := siteProps (Some callerCdk);
     bucket := bucketPath;
     serverLambdaForRegional := None; serverLambdaForEdge := Some serverPath |}.

Definition emptyWorld : World := {| tree := ∅; deferredTaskCallbacks := [] |}.

(** The world a computation leaves behind, or the one it started from
    when it throws. *)
Definition after {A : Type} (c : M A) (w : World) : World :=
  match c w with
  | Ok (_, w') => w'
  | Throw _ => w
  end.

(** The pass once the regional server function has been created. *)
Definition serverWorld : World :=
  after (@createFunctionForRegional constructs regionalSite) emptyWorld.

(** The server function as [createFunctionForRegional] leaves it. *)
Definition serverFunction : LambdaFunction :=
  {| fn_class := SsrFunction;
     fn_props :=
       {| description := Value "Next.js server";
          bundle := Value ["web"; ".open-next"; "server-function"];
          handler := Value "index.handler";
          runtime := Value NODEJS_18_X;
          timeout := Value (CdkDuration_seconds 10);
          memorySize := Value (MemoryNumber (number 1024));
          bind := Undefined;
          permissions := Undefined;
          environment := Value (serverEnvironment regionalSite);
          code := Absent;
          architecture := Absent;
          logRetention := Absent;
          currentVersionOptions := Absent;
          initialPolicy := Absent |};
     fn_environment :=
       <["SST_APP" := Literal "app"]>
         (<["SST_STAGE" := Literal "dev"]>
            (<["SST_SSM_PREFIX" := Literal "/sst/app/dev/"]>
               (serverEnvironment regionalSite)));
     fn_eventSources := [];
     fn_functionUrl := None;
     fn_permissions := [] |}.

(** The regional site once its distribution has been created and the
    deferred revalidation task has run. *)
Definition synthesized : World :=
  after (createRevalidation regionalSite)
    (after (@createCloudFrontDistributionForRegional siteBase regionalSite) serverWorld).

End Sample.

(** ** Further sample inputs *)

Module Cases.

(** A function whose environment is set after the version call. *)
Definition touch (l : LambdaFunction) : LambdaFunction :=
  {| fn_class := fn_class l;
     fn_props :=
       spreadFunctionProps (fn_props l)
         {| description := Absent; handler := Absent;
            code := Value (Code_fromInline "v2");
            runtime := Absent; timeout := Absent; memorySize := Absent;
            architecture := Absent; logRetention := Absent;
            currentVersionOptions := Absent; environment := Absent;
            initialPolicy := Absent; bundle := Absent; bind := Absent;
            permissions := Absent |};
     fn_environment := fn_environment l;
     fn_eventSources := fn_eventSources l;
     fn_functionUrl := fn_functionUrl l;
     fn_permissions := fn_permissions l |}.

(** A caller who sets [CACHE_BUCKET_NAME] in the site's environment and
    replaces the server function's environment through [cdk.server]. *)
Definition callerEnvironment : gmap string Token :=
  <["CACHE_BUCKET_NAME" := Literal "mine"]> {[ "STAGE" := Literal "dev" ]}.

Definition serverOverride : FunctionProps :=
  {| description := Absent; handler := Absent; code := Absent; runtime := Absent;
     timeout := Value (CdkDuration_seconds 60); memorySize := Absent;
     architecture := Absent; logRetention := Absent; currentVersionOptions := Absent;
     environment := Value {[ "ONLY" := Literal "this" ]};
     initialPolicy := Absent; bundle := Absent; bind := Absent; permissions := Absent |}.

Definition propsWith (env : option (gmap string Token)) (c : option Cdk)
    (r : option RegionalProps) (io : option ImageOptimization) : NextSiteProps :=
  {| buildCommand := Absent;
     props_path := "web";
     props_runtime := Some NODEJS_18_X;
     props_timeout := Some (CdkDuration_seconds 10);
     props_memorySize := Some (MemoryNumber (number 1024));
     props_bind := None;
     props_permissions := None;
     props_environment := env;
     customDomain := Some "example.com";
     cdk := c;
     regional := r;
     imageOptimization := io |}.

Definition siteWith (p : NextSiteProps) (regionalFn edgeFn : option path) : NextSite :=
  {| site_node := Sample.site; site_stack := Sample.stack; props := p;
     bucket := Sample.bucketPath;
     serverLambdaForRegional := regionalFn; serverLambdaForEdge := edgeFn |}.

(** A site whose caller sets [CACHE_BUCKET_NAME] itself. *)
Definition shadowingSite : NextSite :=
  siteWith (propsWith (Some callerEnvironment) None None None)
    (Some Sample.serverPath) None.

(** A site whose caller replaces the server environment through
    [cdk.server]. *)
Definition replacingSite : NextSite :=
  siteWith (propsWith (Some callerEnvironment)
              (Some {| distribution := None; revalidation := None;
                       server := Some serverOverride;
                       serverCachePolicy := None;
                       cdk_responseHeadersPolicy := None |}) None None)
    (Some Sample.serverPath) None.

(** A site whose caller passes [environment: undefined] in [cdk.server]. *)
Definition clearingOverride : FunctionProps :=
  {| description := Absent; handler := Absent; code := Absent; runtime := Absent;
     timeout := Absent; memorySize := Absent;
     architecture := Absent; logRetention := Absent; currentVersionOptions := Absent;
     environment := Undefined;
     initialPolicy := Absent; bundle := Absent; bind := Absent; permissions := Absent |}.

Definition clearingSite : NextSite :=
  siteWith (propsWith (Some callerEnvironment)
              (Some {| distribution := None; revalidation := None;
                       server := Some clearingOverride;
                       serverCachePolicy := None;
                       cdk_responseHeadersPolicy := None |}) None None)
    (Some Sample.serverPath) None.






(** A site whose caller asks for 0 MB of image memory, and one that gives a
    size string. *)
Definition zeroMemorySite : NextSite :=
  siteWith (propsWith None None None
              (Some {| io_memorySize := Some (MemoryNumber (number 0)) |}))
    (Some Sample.serverPath) None.

Definition stringMemorySite : NextSite :=
  siteWith (propsWith None None None
              (Some {| io_memorySize := Some (MemoryString "2 GB") |}))
    (Some Sample.serverPath) None.

(** Sites whose caller gives [NaN], a negative number, and a string that is
    no size. *)
Definition nanMemorySite : NextSite :=
  siteWith (propsWith None None None
              (Some {| io_memorySize := Some (MemoryNumber NaN) |}))
    (Some Sample.serverPath) None.

Definition negativeMemorySite : NextSite :=
  siteWith (propsWith None None None
              (Some {| io_memorySize := Some (MemoryNumber (number (-1))) |}))
    (Some Sample.serverPath) None.

Definition junkMemorySite : NextSite :=
  siteWith (propsWith None None None
              (Some {| io_memorySize := Some (MemoryString "lots") |}))
    (Some Sample.serverPath) None.

(** A site with signed function URLs. *)
Definition signedSite : NextSite :=
  siteWith (propsWith None None (Some {| enableServerUrlIamAuth := Some true |}) None)
    (Some Sample.serverPath) None.


End Cases.

(* ===================================================================== *)
(** * Part V.  Theorems                                                    *)
(* ===================================================================== *)

(** ** Strings *)

Lemma length_append (a b : string) :
  String.length (a +:+ b) = String.length a + String.length b.
Proof. induction a as [|c a IH]; simpl; [reflexivity | now rewrite IH]. Qed.

Lemma length_substring_from (n : nat) (s : string) :
  String.length (substring_from n s) = String.length s - n.
Proof.
  revert s; induction n as [|n IH]; intros s.
  - simpl. lia.
  - destruct s as [|c s]; simpl; [reflexivity | apply IH].
Qed.

(** [substring_from] drops a prefix and nothing else. *)
Lemma substring_from_suffix (n : nat) (s : string) :
  exists dropped, s = dropped +:+ substring_from n s /\
                  String.length dropped = Nat.min n (String.length s).
Proof.
  revert s; induction n as [|n IH]; intros s.
  - exists "". split; reflexivity.
  - destruct s as [|c s].
    + exists "". split; reflexivity.
    + destruct (IH s) as (d & Hd & Hl).
      exists (String c d). split; [ | simpl; now rewrite Hl].
      change (String c s = String c (d +:+ substring_from n s)). now rewrite <- Hd.
Qed.

Lemma substring_from_append (a b : string) :
  substring_from (String.length a) (a +:+ b) = b.
Proof. induction a as [|c a IH]; simpl; [now destruct b | exact IH]. Qed.

Example trimFromStart_short : trimFromStart "ServerFn" 12 = "ServerFn".
Proof. reflexivity. Qed.

Example trimFromStart_long : trimFromStart "SiteServerFn" 8 = "ServerFn".
Proof. reflexivity. Qed.

Example trimFromStart_none : trimFromStart "ServerFn" 0 = "".
Proof. reflexivity. Qed.

Lemma length_trimFromStart (s : string) (maxLength : nat) :
  String.length (trimFromStart s maxLength) = Nat.min (String.length s) maxLength.
Proof. unfold trimFromStart. rewrite length_substring_from. lia. Qed.

Lemma lastChars_append (a b : string) :
  lastChars (String.length b) (a +:+ b) = b.
Proof.
  unfold lastChars. rewrite length_append.
  replace (String.length a + String.length b - String.length b) with (String.length a) by lia.
  apply substring_from_append.
Qed.

Lemma resId_ne_providerId (this : CustomEdgeFunction) : resId this <> providerId.
Proof.
  unfold resId, providerId. intros H.
  pose proof (f_equal String.length H) as Hl.
  rewrite length_append in Hl. simpl in Hl.
  destruct (node_id this) as [|c1 [|c2 [|c3 [|c4 [|c5 [|c6 [|c7 [|c8 [|c9 s]]]]]]]]];
    simpl in Hl; try lia.
  simpl in H. inversion H.
Qed.

(** ** The version engine *)

Section Versioning.
Context `{EdgeFunctionBase}.

Lemma versionPath_ne_providerPath (this : CustomEdgeFunction) (stack : path) :
  versionPath this <> providerPath stack.
Proof.
  unfold versionPath, providerPath. intros E.
  apply app_inj_tail in E as [_ E]. exact (resId_ne_providerId this E).
Qed.

Lemma lookup_withProvider_ne (stack : path) (w : World) (q : path) :
  q <> providerPath stack ->
  tree (withProvider stack w) !! q = tree w !! q.
Proof.
  intros Hq. unfold withProvider.
  destruct (tree w !! providerPath stack); [reflexivity|].
  simpl. now rewrite lookup_insert_ne.
Qed.

Lemma lookup_withProvider_old (stack : path) (w : World) (c : Construct) :
  tree w !! providerPath stack = Some c ->
  withProvider stack w = w.
Proof. intros Hc. unfold withProvider. now rewrite Hc. Qed.

Lemma lookup_withProvider_new (stack : path) (w : World) :
  tree w !! providerPath stack = None ->
  tree (withProvider stack w) !! providerPath stack = Some providerFunction.
Proof.
  intros Hc. unfold withProvider. rewrite Hc. simpl. apply lookup_insert_eq.
Qed.

(** The whole effect of one call when the id of the version resource is
    free in [this.scope]. *)
Lemma createVersionInUsEast1_fresh
    (this : CustomEdgeFunction) (fn : path) (fnArn : Token) (w : World) :
  tree w !! versionPath this = None ->
  createVersionInUsEast1 this fn fnArn w =
    Ok ({| version := versionPath this;
           versionId := GetAttString (versionPath this) "Version" |},
        setTree (insert (versionPath this) (versionResource this fn fnArn))
          (withProvider (edge_stack this) w)).
Proof.
  intros Hfree.
  assert (Hfree' : tree (withProvider (edge_stack this) w) !! versionPath this = None).
  { rewrite lookup_withProvider_ne; [exact Hfree | apply versionPath_ne_providerPath]. }
  unfold createVersionInUsEast1, andThen, tryFindChild, newFunction, newConstruct.
  fold (providerPath (edge_stack this)). fold (versionPath this).
  unfold withProvider, providerFunction in *.
  destruct (tree w !! providerPath (edge_stack this)) as [c|] eqn:Hprov; simpl.
  - rewrite Hfree. simpl.
    unfold resolveLogicalId, overrideLogicalId, ret. simpl.
    rewrite !lookup_insert_eq. simpl. rewrite lookup_insert_eq. simpl.
    unfold setTree, versionResource. simpl. now rewrite insert_insert_eq.
  - rewrite Hprov. simpl. simpl in Hfree'. rewrite Hfree'. simpl.
    unfold resolveLogicalId, overrideLogicalId, ret. simpl.
    rewrite !lookup_insert_eq. simpl. rewrite lookup_insert_eq. simpl.
    unfold setTree, versionResource. simpl. now rewrite insert_insert_eq.
Qed.

(** A call whose id is taken in [this.scope] throws, whatever is there. *)
Lemma createVersionInUsEast1_taken
    (this : CustomEdgeFunction) (fn : path) (fnArn : Token) (w : World) :
  is_Some (tree w !! versionPath this) ->
  createVersionInUsEast1 this fn fnArn w = Throw (AlreadyExists (versionPath this)).
Proof.
  intros [c Hc].
  unfold createVersionInUsEast1, andThen, tryFindChild, newFunction, newConstruct.
  fold (providerPath (edge_stack this)). fold (versionPath this).
  destruct (tree w !! providerPath (edge_stack this)) as [c'|] eqn:Hprov; simpl.
  - now rewrite Hc.
  - rewrite Hprov. simpl.
    rewrite lookup_insert_ne by (intros E; symmetry in E;
      exact (versionPath_ne_providerPath this _ E)).
    now rewrite Hc.
Qed.

(** A call returns exactly when the id is free. *)
Lemma createVersionInUsEast1_inv
    (this : CustomEdgeFunction) (fn : path) (fnArn : Token)
    (w w1 : World) (r : VersionRecord) :
  createVersionInUsEast1 this fn fnArn w = Ok (r, w1) ->
  tree w !! versionPath this = None /\
  r = {| version := versionPath this;
         versionId := GetAttString (versionPath this) "Version" |} /\
  w1 = setTree (insert (versionPath this) (versionResource this fn fnArn))
         (withProvider (edge_stack this) w).
Proof.
  intros Hrun.
  destruct (tree w !! versionPath this) as [c|] eqn:Hc.
  - rewrite createVersionInUsEast1_taken in Hrun by (rewrite Hc; eauto).
    discriminate.
  - rewrite createVersionInUsEast1_fresh in Hrun by exact Hc.
    inversion Hrun; subst. auto.
Qed.

(** Resolving the overridden logical id runs the producer on the state
    the function has at that moment. *)
Lemma resolveLogicalId_version
    (this : CustomEdgeFunction) (fn : path) (fnArn : Token)
    (w : World) (c : Construct) :
  tree w !! versionPath this = Some (versionResource this fn fnArn) ->
  tree w !! fn = Some c ->
  resolveLogicalId (versionPath this) w = Ok (versionIdentifier this c, w).
Proof.
  intros Hv Hfn. unfold resolveLogicalId. rewrite Hv. simpl. now rewrite Hfn.
Qed.

Lemma length_versionIdentifier (this : CustomEdgeFunction) (c : Construct) :
  String.length (calculateHash c) = 32 ->
  String.length (versionIdentifier this c) =
    Nat.min (String.length (allocateLogicalId (versionPath this ++ ["Default"])))
            (255 - 32) + 32.
Proof.
  intros Hw. unfold versionIdentifier.
  now rewrite length_append, length_trimFromStart, Hw.
Qed.

End Versioning.

(** ** Claims on versioning *)

(** C1: versioning is idempotent from one synthesis pass to the next.  Two
    passes that version the same edge function, and in which the function
    hashes to the same value, return the same record and resolve the version's
    logical id to the same string; so once the first pass is deployed, the
    second has no new version resource to create.  The method is not handed
    the earlier record: it builds the version construct in every pass, at an
    id that must be free in [this.scope], and the earlier outcome is what the
    deployed stack holds. *)
Theorem versioning_idempotent `{EdgeFunctionBase}
    (this : CustomEdgeFunction)
    (fn fn' : path) (fnArn fnArn' : Token)
    (w w1 w' w1' : World) (r r' : VersionRecord) (c c' : Construct) :
  createVersionInUsEast1 this fn fnArn w = Ok (r, w1) ->
  createVersionInUsEast1 this fn' fnArn' w' = Ok (r', w1') ->
  tree w1 !! fn = Some c ->
  tree w1' !! fn' = Some c' ->
  calculateHash c = calculateHash c' ->
  r' = r /\
  exists id,
    resolveLogicalId (version r) w1 = Ok (id, w1) /\
    resolveLogicalId (version r') w1' = Ok (id, w1') /\
    forall deployed : gset string,
      id ∈ deployed -> createsOnDeploy deployed w1' (version r') = false.
Proof.
  intros Hrun Hrun' Hfn Hfn' Hhash.
  apply createVersionInUsEast1_inv in Hrun as (Hfree & -> & ->).
  apply createVersionInUsEast1_inv in Hrun' as (Hfree' & -> & ->).
  simpl in *. split; [reflexivity|].
  assert (Hid : resolveLogicalId (versionPath this)
                  (setTree (insert (versionPath this) (versionResource this fn fnArn))
                     (withProvider (edge_stack this) w))
                = Ok (versionIdentifier this c,
                      setTree (insert (versionPath this) (versionResource this fn fnArn))
                        (withProvider (edge_stack this) w))).
  { eapply resolveLogicalId_version; [apply lookup_insert_eq | exact Hfn]. }
  assert (Hid' : resolveLogicalId (versionPath this)
                   (setTree (insert (versionPath this) (versionResource this fn' fnArn'))
                      (withProvider (edge_stack this) w'))
                 = Ok (versionIdentifier this c,
                       setTree (insert (versionPath this) (versionResource this fn' fnArn'))
                         (withProvider (edge_stack this) w'))).
  { replace (versionIdentifier this c) with (versionIdentifier this c')
      by (unfold versionIdentifier; now rewrite Hhash).
    eapply resolveLogicalId_version; [apply lookup_insert_eq | exact Hfn']. }
  exists (versionIdentifier this c).
  split; [exact Hid|]. split; [exact Hid'|].
  intros deployed Hin. unfold createsOnDeploy. rewrite Hid'.
  now apply bool_decide_eq_false_2; intros Hnot.
Qed.

(** C2: the identifier the version resource resolves to is the allocated
    logical id with characters dropped from its start until at most 255 - 32
    remain, followed by the hash; with a 32-character hash its length is
    min(L, 255 - 32) + 32, at most 255. *)
Theorem identifier_length_invariant `{EdgeFunctionBase}
    (this : CustomEdgeFunction) (fn : path) (fnArn : Token)
    (w w1 w2 : World) (r : VersionRecord) (c : Construct) :
  createVersionInUsEast1 this fn fnArn w = Ok (r, w1) ->
  tree w2 !! version r = tree w1 !! version r ->
  tree w2 !! fn = Some c ->
  String.length (calculateHash c) = 32 ->
  exists id dropped,
    resolveLogicalId (version r) w2 = Ok (id, w2) /\
    allocateLogicalId (version r ++ ["Default"]) =
      dropped +:+ trimFromStart (allocateLogicalId (version r ++ ["Default"])) (255 - 32) /\
    id = trimFromStart (allocateLogicalId (version r ++ ["Default"])) (255 - 32)
           +:+ calculateHash c /\
    String.length id =
      Nat.min (String.length (allocateLogicalId (version r ++ ["Default"]))) (255 - 32) + 32 /\
    String.length id <= 255.
Proof.
  intros Hrun Hsame Hfn Hwidth.
  apply createVersionInUsEast1_inv in Hrun as (Hfree & -> & ->).
  simpl in *. rewrite lookup_insert_eq in Hsame.
  set (base := allocateLogicalId (versionPath this ++ ["Default"])).
  destruct (substring_from_suffix
              (String.length base - Nat.min (255 - 32) (String.length base)) base)
    as (dropped & Hdrop & _).
  exists (versionIdentifier this c), dropped.
  pose proof (length_versionIdentifier this c Hwidth) as Hlen. fold base in Hlen.
  split; [now apply (resolveLogicalId_version this fn fnArn)|].
  split; [exact Hdrop|].
  split; [reflexivity|].
  split; [exact Hlen|].
  rewrite Hlen. lia.
Qed.

Lemma identifier_length_invariant_witness :
  exists id dropped,
    @resolveLogicalId Sample.edgeBase (version Sample.record1) Sample.world1
      = Ok (id, Sample.world1) /\
    @allocateLogicalId Sample.edgeBase (version Sample.record1 ++ ["Default"]) =
      dropped +:+ trimFromStart
        (@allocateLogicalId Sample.edgeBase (version Sample.record1 ++ ["Default"]))
        (255 - 32) /\
    id = trimFromStart
           (@allocateLogicalId Sample.edgeBase (version Sample.record1 ++ ["Default"]))
           (255 - 32)
           +:+ @calculateHash Sample.edgeBase (Sample.lambda "v1") /\
    String.length id =
      Nat.min (String.length
                 (@allocateLogicalId Sample.edgeBase (version Sample.record1 ++ ["Default"])))
              (255 - 32) + 32 /\
    String.length id <= 255.
Proof.
  apply (@identifier_length_invariant Sample.edgeBase Sample.serverEdge Sample.fn
           Sample.fnArn Sample.world0 Sample.world1 Sample.world1 Sample.record1
           (Sample.lambda "v1")).
  - vm_compute. reflexivity.
  - reflexivity.
  - vm_compute. reflexivity.
  - reflexivity.
Defined.

(** The second sample pass starts from a tree that holds more than the
    first, with the function unchanged. *)
Lemma versioning_idempotent_witness :
  exists id,
    @resolveLogicalId Sample.edgeBase (version Sample.record1) Sample.world1
      = Ok (id, Sample.world1) /\
    @resolveLogicalId Sample.edgeBase (version Sample.record1) Sample.world3
      = Ok (id, Sample.world3) /\
    @createsOnDeploy Sample.edgeBase {[id]} Sample.world3 (version Sample.record1) = false.
Proof.
  destruct (@versioning_idempotent Sample.edgeBase Sample.serverEdge
              Sample.fn Sample.fn Sample.fnArn Sample.fnArn
              Sample.world0 Sample.world1 Sample.world2 Sample.world3
              Sample.record1 Sample.record1 (Sample.lambda "v1") (Sample.lambda "v1"))
    as (_ & id & Hid1 & Hid3 & Hdeploy).
  - vm_compute. reflexivity.
  - vm_compute. reflexivity.
  - vm_compute. reflexivity.
  - vm_compute. reflexivity.
  - reflexivity.
  - exists id. split; [exact Hid1|]. split; [exact Hid3|].
    apply Hdeploy. now apply elem_of_singleton.
Defined.

(** Within one pass the same edge function cannot be versioned twice: the
    second [new CustomResource(this.scope, resId)] finds the id taken. *)
Example second_call_in_same_pass_throws :
  @createVersionInUsEast1 Sample.edgeBase Sample.serverEdge Sample.fn Sample.fnArn
      Sample.world1
    = Throw (AlreadyExists (versionPath Sample.serverEdge)).
Proof. vm_compute. reflexivity. Qed.

(** A changed function is a new version resource for the deployed stack. *)
Example changed_function_creates_version :
  exists id,
    @resolveLogicalId Sample.edgeBase (version Sample.record1) Sample.world1
      = Ok (id, Sample.world1) /\
    @createsOnDeploy Sample.edgeBase {[id]} Sample.world1' (version Sample.record1) = true.
Proof. eexists. split; [vm_compute; reflexivity|]. vm_compute. reflexivity. Qed.

(** C3: with the edge function (and so the base identifier) fixed, two passes
    resolve the version's logical id to one common trimmed base followed by
    the hash of the function as it is in each pass.  Equal function payloads
    give equal identifiers; payloads that differ, on which the hash is
    injective, give identifiers that differ, and they differ in the hash
    suffix. *)
Theorem identifier_determined_by_content `{EdgeFunctionBase}
    (this : CustomEdgeFunction)
    (fn1 fn2 : path) (fnArn1 fnArn2 : Token)
    (w1 w1' w2 w2' : World) (r1 r2 : VersionRecord) (c1 c2 : Construct) :
  createVersionInUsEast1 this fn1 fnArn1 w1 = Ok (r1, w1') ->
  createVersionInUsEast1 this fn2 fnArn2 w2 = Ok (r2, w2') ->
  tree w1' !! fn1 = Some c1 ->
  tree w2' !! fn2 = Some c2 ->
  exists base id1 id2,
    resolveLogicalId (version r1) w1' = Ok (id1, w1') /\
    resolveLogicalId (version r2) w2' = Ok (id2, w2') /\
    id1 = base +:+ calculateHash c1 /\
    id2 = base +:+ calculateHash c2 /\
    lastChars (String.length (calculateHash c1)) id1 = calculateHash c1 /\
    lastChars (String.length (calculateHash c2)) id2 = calculateHash c2 /\
    (c1 = c2 -> id1 = id2) /\
    (c1 <> c2 -> (calculateHash c1 = calculateHash c2 -> c1 = c2) ->
     id1 <> id2 /\ calculateHash c1 <> calculateHash c2).
Proof.
  intros Hrun1 Hrun2 Hfn1 Hfn2.
  apply createVersionInUsEast1_inv in Hrun1 as (Hfree1 & -> & ->).
  apply createVersionInUsEast1_inv in Hrun2 as (Hfree2 & -> & ->).
  simpl in *.
  exists (trimFromStart (allocateLogicalId (versionPath this ++ ["Default"])) (255 - 32)),
         (versionIdentifier this c1), (versionIdentifier this c2).
  split.
  { apply (resolveLogicalId_version this fn1 fnArn1); [apply lookup_insert_eq | exact Hfn1]. }
  split.
  { apply (resolveLogicalId_version this fn2 fnArn2); [apply lookup_insert_eq | exact Hfn2]. }
  split; [reflexivity|]. split; [reflexivity|].
  split; [apply lastChars_append|]. split; [apply lastChars_append|].
  split.
  - intros ->. reflexivity.
  - intros Hne Hinj.
    assert (Hh : calculateHash c1 <> calculateHash c2) by (intros E; exact (Hne (Hinj E))).
    split; [|exact Hh].
    unfold versionIdentifier. intros E. apply Hh.
    eapply String.app_inj. exact E.
Qed.

Lemma identifier_determined_by_content_witness :
  exists id1 id2,
    @resolveLogicalId Sample.edgeBase (version Sample.record1) Sample.world1
      = Ok (id1, Sample.world1) /\
    @resolveLogicalId Sample.edgeBase (version Sample.record1) Sample.world1'
      = Ok (id2, Sample.world1') /\
    lastChars 32 id1 = Sample.digest (Sample.lambda "v1") /\
    lastChars 32 id2 = Sample.digest (Sample.lambda "v2") /\
    id1 <> id2.
Proof.
  destruct (@identifier_determined_by_content Sample.edgeBase Sample.serverEdge
              Sample.fn Sample.fn Sample.fnArn Sample.fnArn
              Sample.world0 Sample.world1 Sample.world0' Sample.world1'
              Sample.record1 Sample.record1 (Sample.lambda "v1") (Sample.lambda "v2"))
    as (base & id1 & id2 & Hid1 & Hid2 & _ & _ & Hlast1 & Hlast2 & _ & Hdiffer).
  - vm_compute. reflexivity.
  - vm_compute. reflexivity.
  - vm_compute. reflexivity.
  - vm_compute. reflexivity.
  - exists id1, id2.
    split; [exact Hid1|]. split; [exact Hid2|].
    split; [exact Hlast1|]. split; [exact Hlast2|].
    apply Hdiffer.
    + intros E. inversion E.
    + intros E. vm_compute in E. discriminate E.
Defined.

(** A base identifier longer than 255 - 32 characters: the version identifier
    is cut to the ceiling and still ends in the hash. *)
Example long_identifier_fits :
  String.length (@allocateLogicalId Sample.longBase
                   (versionPath Sample.serverEdge ++ ["Default"])) = 260 /\
  String.length (@versionIdentifier Sample.longBase Sample.serverEdge (Sample.lambda "v1"))
    = 255 /\
  lastChars 32 (@versionIdentifier Sample.longBase Sample.serverEdge (Sample.lambda "v1"))
    = "11111111111111111111111111111111".
Proof. vm_compute. repeat split; reflexivity. Qed.

(** ** The provider *)

Lemma functionCount_insert_fresh (w : World) (p : path) (c : Construct) :
  tree w !! p = None ->
  functionCount (setTree (insert p c) w) =
    functionCount w + (if isFunction c then 1 else 0).
Proof.
  intros Hfree. unfold functionCount. simpl.
  destruct (isFunction c) eqn:Hc.
  - rewrite map_filter_insert_True by exact Hc.
    rewrite map_size_insert_None; [lia|].
    apply map_lookup_filter_None. now left.
  - rewrite map_filter_insert_not'; [lia | simpl; congruence |].
    intros y Hy. congruence.
Qed.

Section Provider.
Context `{EdgeFunctionBase}.

Lemma functionCount_withProvider (stack : path) (w : World) :
  functionCount (withProvider stack w) =
    functionCount w + match tree w !! providerPath stack with Some _ => 0 | None => 1 end.
Proof.
  unfold withProvider.
  destruct (tree w !! providerPath stack) eqn:Hp; [lia|].
  now rewrite functionCount_insert_fresh.
Qed.

(** One call adds the version resource, adds the provider only when the
    stack has none, and leaves every other construct as it was. *)
Lemma createVersionInUsEast1_effect
    (this : CustomEdgeFunction) (fn : path) (fnArn : Token)
    (w w1 : World) (r : VersionRecord) :
  createVersionInUsEast1 this fn fnArn w = Ok (r, w1) ->
  (forall q c, tree w !! q = Some c -> tree w1 !! q = Some c) /\
  (forall q, q <> versionPath this -> q <> providerPath (edge_stack this) ->
             tree w1 !! q = tree w !! q) /\
  is_Some (tree w1 !! providerPath (edge_stack this)) /\
  (tree w !! providerPath (edge_stack this) = None ->
   tree w1 !! providerPath (edge_stack this) = Some providerFunction) /\
  serviceTokenAt w1 (version r) = Some (FunctionArn (providerPath (edge_stack this))) /\
  functionCount w1 =
    functionCount w + match tree w !! providerPath (edge_stack this) with Some _ => 0 | None => 1 end.
Proof.
  intros Hrun.
  apply createVersionInUsEast1_inv in Hrun as (Hfree & -> & ->).
  pose proof (versionPath_ne_providerPath this (edge_stack this)) as Hne.
  assert (Hfree' : tree (withProvider (edge_stack this) w) !! versionPath this = None).
  { now rewrite lookup_withProvider_ne. }
  repeat split.
  - intros q c Hq. simpl.
    assert (q <> versionPath this) by congruence.
    rewrite lookup_insert_ne by congruence.
    destruct (decide (q = providerPath (edge_stack this))) as [->|Hq'].
    + now rewrite (lookup_withProvider_old _ _ _ Hq).
    + now rewrite lookup_withProvider_ne.
  - intros q Hq1 Hq2. simpl.
    rewrite lookup_insert_ne by congruence. now apply lookup_withProvider_ne.
  - simpl. rewrite lookup_insert_ne by exact Hne.
    destruct (tree w !! providerPath (edge_stack this)) as [c|] eqn:Hp.
    + rewrite (lookup_withProvider_old _ _ _ Hp), Hp. eauto.
    + rewrite lookup_withProvider_new by exact Hp. eauto.
  - intros Hp. simpl. rewrite lookup_insert_ne by exact Hne.
    now apply lookup_withProvider_new.
  - unfold serviceTokenAt. simpl. now rewrite lookup_insert_eq.
  - rewrite functionCount_insert_fresh by exact Hfree'. simpl.
    rewrite functionCount_withProvider. lia.
Qed.

Lemma createVersions_keeps
    (calls : list (CustomEdgeFunction * path * Token))
    (w w' : World) (rs : list VersionRecord) :
  createVersions calls w = Ok (rs, w') ->
  forall q c, tree w !! q = Some c -> tree w' !! q = Some c.
Proof.
  revert w w' rs. induction calls as [|[[this fn] fnArn] rest IH]; intros w w' rs Hrun q c Hq.
  - inversion Hrun; subst. exact Hq.
  - simpl in Hrun. unfold andThen in Hrun.
    destruct (createVersionInUsEast1 this fn fnArn w) as [[r w1]|e] eqn:Hcall;
      [|discriminate].
    destruct (createVersions rest w1) as [[rs' w2]|e] eqn:Hrest; [|discriminate].
    inversion Hrun; subst.
    apply (IH _ _ _ Hrest).
    now apply (createVersionInUsEast1_effect _ _ _ _ _ _ Hcall).
Qed.

Lemma serviceTokenAt_keeps (w w' : World) (p : path) (t : Token) :
  (forall q c, tree w !! q = Some c -> tree w' !! q = Some c) ->
  serviceTokenAt w p = Some t -> serviceTokenAt w' p = Some t.
Proof.
  intros Hkeep. unfold serviceTokenAt.
  destruct (tree w !! p) as [c|] eqn:Hp; [|discriminate].
  now rewrite (Hkeep _ _ Hp).
Qed.

End Provider.

(** C10: any number of calls within one stack, each for an edge function
    whose version id is still free, all return; together they add at most one
    function construct to the tree.  A provider the stack already has is kept
    as it is and no function is created; otherwise the first call creates the
    provider and every later call finds it.  Every version resource names
    that one provider as its service token. *)
Theorem provider_created_at_most_once `{EdgeFunctionBase}
    (stack : path) (calls : list (CustomEdgeFunction * path * Token)) (w : World) :
  Forall (fun call => edge_stack call.1.1 = stack) calls ->
  NoDup ((fun call => versionPath call.1.1) <$> calls) ->
  Forall (fun call => tree w !! versionPath call.1.1 = None) calls ->
  exists rs w',
    createVersions calls w = Ok (rs, w') /\
    length rs = length calls /\
    functionCount w' <= functionCount w + 1 /\
    (forall c, tree w !! providerPath stack = Some c ->
               tree w' !! providerPath stack = Some c /\
               functionCount w' = functionCount w) /\
    (tree w !! providerPath stack = None -> calls <> [] ->
     tree w' !! providerPath stack = Some providerFunction /\
     functionCount w' = S (functionCount w)) /\
    Forall (fun r => serviceTokenAt w' (version r) = Some (FunctionArn (providerPath stack))) rs.
Proof.
  revert w. induction calls as [|[[this fn] fnArn] rest IH]; intros w Hstack Hdup Hfree.
  - exists [], w.
    split; [reflexivity|]. split; [reflexivity|]. split; [lia|].
    split; [intros c Hc; auto|].
    split; [intros _ Hne; now contradiction Hne | constructor].
  - apply Forall_cons in Hstack as [Hs Hstack']. simpl in Hs. subst stack.
    rewrite fmap_cons in Hdup. apply NoDup_cons in Hdup as [Hnotin Hdup']. simpl in Hnotin.
    apply Forall_cons in Hfree as [Hf Hfree']. simpl in Hf.
    pose proof (createVersionInUsEast1_fresh this fn fnArn w Hf) as Hcall.
    remember (setTree (insert (versionPath this) (versionResource this fn fnArn))
                (withProvider (edge_stack this) w)) as w1 eqn:Hw1.
    pose proof (createVersionInUsEast1_effect _ _ _ _ _ _ Hcall)
      as (Hkeep & Hframe & Hprov & Hnew & Htoken & Hcount).
    assert (Hfree1 : Forall (fun call => tree w1 !! versionPath call.1.1 = None) rest).
    { rewrite Forall_forall in Hfree'. apply Forall_forall. intros call Hin.
      rewrite Hframe.
      - now apply Hfree'.
      - intros E. apply Hnotin. rewrite <- E.
        apply list_elem_of_fmap. exists call. split; [reflexivity | exact Hin].
      - apply versionPath_ne_providerPath. }
    destruct (IH w1 Hstack' Hdup' Hfree1)
      as (rs & w' & Hrun & Hlen & Hle & Hold & Hfresh & Htokens).
    exists ({| version := versionPath this;
               versionId := GetAttString (versionPath this) "Version" |} :: rs), w'.
    destruct Hprov as [c1 Hc1].
    destruct (Hold c1 Hc1) as [Hc1' Hcount'].
    split.
    { simpl. unfold andThen. rewrite Hcall, Hrun. reflexivity. }
    split; [simpl; now rewrite Hlen|].
    split.
    { rewrite Hcount', Hcount. destruct (tree w !! providerPath (edge_stack this)); lia. }
    split.
    { intros c Hc. rewrite Hc in Hcount.
      apply Hkeep in Hc. rewrite Hc in Hc1. inversion Hc1; subst c1.
      split; [exact Hc1' | lia]. }
    split.
    { intros Hnone _. rewrite Hnone in Hcount.
      rewrite (Hnew Hnone) in Hc1. inversion Hc1; subst c1.
      split; [exact Hc1' | lia]. }
    constructor; [|exact Htokens].
    simpl in *. eapply serviceTokenAt_keeps; [|exact Htoken].
    eapply createVersions_keeps. exact Hrun.
Qed.

Lemma provider_created_at_most_once_witness :
  exists rs w',
    @createVersions Sample.edgeBase
      [ (Sample.serverEdge, Sample.fn, Sample.fnArn);
        (Sample.signingEdge, Sample.fn, Sample.fnArn) ] Sample.world0 = Ok (rs, w') /\
    length rs = 2 /\
    functionCount w' <= functionCount Sample.world0 + 1 /\
    (forall c, tree Sample.world0 !! providerPath Sample.stack = Some c ->
               tree w' !! providerPath Sample.stack = Some c /\
               functionCount w' = functionCount Sample.world0) /\
    (tree Sample.world0 !! providerPath Sample.stack = None ->
     [ (Sample.serverEdge, Sample.fn, Sample.fnArn);
       (Sample.signingEdge, Sample.fn, Sample.fnArn) ] <> [] ->
     tree w' !! providerPath Sample.stack = Some providerFunction /\
     functionCount w' = S (functionCount Sample.world0)) /\
    Forall (fun r => serviceTokenAt w' (version r)
                     = Some (FunctionArn (providerPath Sample.stack))) rs.
Proof.
  apply (@provider_created_at_most_once Sample.edgeBase Sample.stack
           [ (Sample.serverEdge, Sample.fn, Sample.fnArn);
             (Sample.signingEdge, Sample.fn, Sample.fnArn) ] Sample.world0).
  - repeat constructor.
  - simpl. apply NoDup_cons. split; [|apply NoDup_singleton].
    intros Hin. apply list_elem_of_singleton in Hin. vm_compute in Hin. discriminate Hin.
  - repeat constructor.
Defined.

(** ** Revalidation *)

Example serverWorld_has_server :
  tree Sample.serverWorld !! Sample.serverPath
    = Some (FunctionConstruct Sample.serverFunction).
Proof. vm_compute. reflexivity. Qed.

(** C6: a site with neither a regional nor an edge server function gets
    nothing from [createRevalidation]: it returns and the pass is exactly as
    it was, so no queue or consumer exists that did not before and no
    environment has changed. *)
Theorem revalidation_noop (this : NextSite) (w : World) :
  serverLambdaForRegional this = None ->
  serverLambdaForEdge this = None ->
  createRevalidation this w = Ok (tt, w).
Proof.
  intros Hregional Hedge. unfold createRevalidation.
  rewrite Hregional, Hedge. reflexivity.
Qed.

Lemma revalidation_noop_witness :
  createRevalidation Sample.staticSite Sample.serverWorld = Ok (tt, Sample.serverWorld).
Proof.
  apply (revalidation_noop Sample.staticSite Sample.serverWorld); reflexivity.
Defined.


(** *** The primitives of the construct tree *)

Lemma newConstruct_fresh (scope : path) (id : string) (c : Construct) (w : World) :
  tree w !! (scope ++ [id]) = None ->
  newConstruct scope id c w = Ok (scope ++ [id], setTree (insert (scope ++ [id]) c) w).
Proof. intros Hfree. unfold newConstruct. now rewrite Hfree. Qed.

Lemma newConstruct_inv (scope : path) (id : string) (c : Construct)
    (w w' : World) (p : path) :
  newConstruct scope id c w = Ok (p, w') ->
  p = scope ++ [id] /\ tree w !! p = None /\ w' = setTree (insert p c) w.
Proof.
  unfold newConstruct. intros Hrun.
  destruct (tree w !! (scope ++ [id])) eqn:Hp; [discriminate|].
  inversion Hrun; subst. auto.
Qed.

Lemma newConstructs_inv (scope : path) (children : list (string * Construct))
    (w w' : World) :
  newConstructs scope children w = Ok (tt, w') ->
  (forall p c, tree w !! p = Some c -> tree w' !! p = Some c) /\
  deferredTaskCallbacks w' = deferredTaskCallbacks w.
Proof.
  revert w. induction children as [|[id c] rest IH]; intros w Hrun.
  - unfold newConstructs, ret in Hrun. inversion Hrun; subst. auto.
  - simpl in Hrun. unfold andThen in Hrun.
    destruct (newConstruct scope id c w) as [[q w1]|e] eqn:Hnew; [|discriminate].
    apply newConstruct_inv in Hnew as (-> & Hfree & ->).
    apply IH in Hrun as [Hkeeps Htasks]. split; [|exact Htasks].
    intros p c' Hp. apply Hkeeps. simpl.
    rewrite lookup_insert_ne by congruence. exact Hp.
Qed.

(** [new Distribution] registers the distribution under a free id; what SST
    creates besides leaves the distribution, and every construct there was,
    as it is. *)
Lemma newDistribution_inv `{SstConstructs} (scope : path) (id : string)
    (props : DistributionProps) (w w' : World) (dist : path) :
  newDistribution scope id props w = Ok (dist, w') ->
  dist = scope ++ [id] /\
  tree w !! dist = None /\
  tree w' !! dist = Some (DistributionConstruct props) /\
  (forall p c, tree w !! p = Some c -> tree w' !! p = Some c) /\
  deferredTaskCallbacks w' = deferredTaskCallbacks w.
Proof.
  unfold newDistribution, andThen. intros Hrun.
  destruct (newConstruct scope id _ w) as [[q w1]|e] eqn:Hnew; [|discriminate].
  apply newConstruct_inv in Hnew as (-> & Hfree & ->).
  destruct (newConstructs _ _ _) as [[[] w2]|e] eqn:Hchildren; [|discriminate].
  unfold ret in Hrun. inversion Hrun; subst dist w'.
  apply newConstructs_inv in Hchildren as [Hkeeps Htasks].
  split; [reflexivity|]. split; [exact Hfree|].
  split; [apply Hkeeps; simpl; apply lookup_insert_eq|].
  split; [|exact Htasks].
  intros p c Hp. apply Hkeeps. simpl.
  rewrite lookup_insert_ne by congruence. exact Hp.
Qed.

Lemma updateFunction_ok (fn : path) (f : LambdaFunction -> LambdaFunction)
    (w : World) (l : LambdaFunction) :
  tree w !! fn = Some (FunctionConstruct l) ->
  updateFunction fn f w = Ok (tt, setTree (insert fn (FunctionConstruct (f l))) w).
Proof. intros Hl. unfold updateFunction. now rewrite Hl. Qed.

Lemma updateFunction_inv (fn : path) (f : LambdaFunction -> LambdaFunction)
    (w w' : World) (u : unit) :
  updateFunction fn f w = Ok (u, w') ->
  exists l, tree w !! fn = Some (FunctionConstruct l) /\
            w' = setTree (insert fn (FunctionConstruct (f l))) w.
Proof.
  unfold updateFunction. intros Hrun.
  destruct (tree w !! fn) as [[l| | | |]|] eqn:Hl; try discriminate.
  inversion Hrun; subst. eauto.
Qed.




(** The constructor leaves [createRevalidation] to the deferred tasks: it is
    the last callback on the list when the constructor returns, and running
    it is running [createRevalidation] on the constructed site. *)
Lemma NextSite_constructor_defers `{SsrSiteBase}
    (scope : path) (id : string) (p : NextSiteProps) (w w' : World) (this : NextSite) :
  NextSite_constructor scope id p w = Ok (this, w') ->
  exists tasks,
    deferredTaskCallbacks w' = tasks ++ [Task_createRevalidation this] /\
    runDeferredTask (Task_createRevalidation this) = createRevalidation this.
Proof.
  unfold NextSite_constructor, andThen, pushDeferredTask, ret. intros Hrun.
  destruct (SsrSite_constructor scope id _ w) as [[this0 w0]|e]; [|discriminate].
  inversion Hrun; subst. simpl. eauto.
Qed.

(** ** The image function and its behavior *)

Ltac inv_bind H :=
  match type of H with
  | match ?c with Ok _ => _ | Throw _ => _ end = Ok _ =>
      let E := fresh "Hstep" in
      destruct c as [[? ?]|?] eqn:E; [|discriminate H]
  end.

Section Image.
Context `{SsrSiteBase}.

Lemma createImageOptimizationFunction_fresh
    (this : NextSite) (w : World) (memory : JsNumber) :
  imageMemorySize (imageOptimization (props this)) = Ok memory ->
  tree w !! imageFunctionPath this = None ->
  createImageOptimizationFunction this w =
    Ok (imageFunctionPath this,
        {| tree := <[imageFunctionPath this :=
                       FunctionConstruct
                         {| fn_class := CdkFunction;
                            fn_props := imageFunctionProps this memory;
                            fn_environment :=
                              <["BUCKET_KEY_PREFIX" := Literal "_assets"]>
                                (<["BUCKET_NAME" := BucketName (bucket this)]> ∅);
                            fn_eventSources := [];
                            fn_functionUrl := None;
                            fn_permissions := [] |}]> (tree w);
           deferredTaskCallbacks :=
             deferredTaskCallbacks w ++
             [Task_updateImageFunctionCode (imageFunctionPath this)
                (props_path (props this))] |}).
Proof.
  intros Hmemory Hfree.
  unfold createImageOptimizationFunction, andThen, evaluate, newFunction.
  rewrite Hmemory.
  fold (imageFunctionPath this).
  unfold imageFunctionPath in *. rewrite newConstruct_fresh by exact Hfree.
  reflexivity.
Qed.

(** A size string that cannot be read makes the creation throw what the
    conversion throws, whatever the tree holds. *)
Lemma createImageOptimizationFunction_invalid
    (this : NextSite) (w : World) (e : Error) :
  imageMemorySize (imageOptimization (props this)) = Throw e ->
  createImageOptimizationFunction this w = Throw e.
Proof.
  intros Hmemory.
  unfold createImageOptimizationFunction, andThen, evaluate.
  now rewrite Hmemory.
Qed.

Lemma createImageOptimizationFunction_inv (this : NextSite) (w w' : World) (fn : path) :
  createImageOptimizationFunction this w = Ok (fn, w') ->
  fn = imageFunctionPath this /\
  tree w !! imageFunctionPath this = None /\
  exists memory, imageMemorySize (imageOptimization (props this)) = Ok memory.
Proof.
  intros Hrun.
  destruct (imageMemorySize (imageOptimization (props this))) as [memory|e] eqn:Hmemory.
  - destruct (tree w !! imageFunctionPath this) eqn:Hp.
    + unfold createImageOptimizationFunction, andThen, evaluate, newFunction, newConstruct
        in Hrun.
      rewrite Hmemory in Hrun.
      fold (imageFunctionPath this) in Hrun. rewrite Hp in Hrun. discriminate.
    + rewrite (createImageOptimizationFunction_fresh this w memory Hmemory Hp) in Hrun.
      inversion Hrun; subst. eauto.
  - rewrite (createImageOptimizationFunction_invalid this w e Hmemory) in Hrun.
    discriminate.
Qed.

(** What [buildImageBehavior] returns whenever it returns. *)
Lemma buildImageBehavior_inv (this : NextSite) (w w' : World) (b : Behavior) :
  buildImageBehavior this w = Ok (b, w') ->
  origin b = HttpOrigin (ParseDomainName (FunctionUrl (imageFunctionPath this))) /\
  viewerProtocolPolicy b = Some REDIRECT_TO_HTTPS /\
  allowedMethods b = Some ALLOW_ALL /\
  cachedMethods b = Some CACHE_GET_HEAD_OPTIONS /\
  compress b = Some true /\
  match cdk (props this) ≫= serverCachePolicy with
  | Some p => cachePolicy b = Some p
  | None =>
      exists p w0 w1,
        super_useServerBehaviorCachePolicy this serverCacheHeaders w0 = Ok (p, w1) /\
        cachePolicy b = Some p
  end.
Proof.
  unfold buildImageBehavior. intros Hrun.
  unfold andThen in Hrun at 1. inv_bind Hrun.
  apply createImageOptimizationFunction_inv in Hstep as (-> & _ & _).
  unfold andThen in Hrun at 1. inv_bind Hrun.
  assert (t = FunctionUrl (imageFunctionPath this)) as ->.
  { unfold addFunctionUrl in Hstep.
    destruct (tree _ !! _) as [[l| | | |]|]; try discriminate.
    destruct (fn_functionUrl l); [discriminate|].
    now inversion Hstep. }
  unfold andThen in Hrun at 1. inv_bind Hrun.
  unfold andThen in Hrun at 1. inv_bind Hrun.
  unfold ret in Hrun. inversion Hrun; subst b w'. simpl.
  repeat split.
  destruct (cdk (props this) ≫= serverCachePolicy) as [p|].
  - unfold ret in Hstep0. now inversion Hstep0.
  - unfold useServerBehaviorCachePolicy in Hstep0. eauto.
Qed.

End Image.

Lemma wildcardMatch_star (s : string) : wildcardMatch "*" s = true.
Proof.
  induction s as [|c s IH].
  - reflexivity.
  - simpl in *. exact IH.
Qed.

(** C9, as stated, fails: the statement the image function is created with
    names every object of the bucket, so the function can read a prerendered
    page under [_cache], whose key does not start with [_assets]. *)
Lemma image_function_reads_only_assets_fails : ~ image_function_reads_only_assets.
Proof.
  intros Hclaim.
  destruct (Hclaim Sample.siteBase Sample.regionalSite Sample.serverWorld
              (Sample.after (@createImageOptimizationFunction Sample.siteBase
                               Sample.regionalSite) Sample.serverWorld)
              (imageFunctionPath Sample.regionalSite) "_cache/index.html")
    as [Hread _].
  - vm_compute. reflexivity.
  - assert (Hgrant : grantsGetObject
              (initialPolicyAt
                 (Sample.after (@createImageOptimizationFunction Sample.siteBase
                                  Sample.regionalSite) Sample.serverWorld)
                 (imageFunctionPath Sample.regionalSite))
              (bucket Sample.regionalSite) "_cache/index.html" = true)
      by (vm_compute; reflexivity).
    specialize (Hread Hgrant). vm_compute in Hread. discriminate Hread.
Qed.

(** C9, amended: when its construct id is free and the [memorySize]
    expression evaluates (a size string, if one is given, is one [toCdkSize]
    reads), the image function is created with one policy statement, which
    allows [s3:GetObject] and no other action on
    [bucket.arnForObjects("*")]: every object of the site's bucket, whatever
    its key, and no object of another bucket.  The prefix [_assets] is not
    part of the grant; the function is only told of it through its
    [BUCKET_KEY_PREFIX] environment entry. *)
Theorem image_function_storage_access `{SsrSiteBase}
    (this : NextSite) (w : World) (memory : JsNumber) :
  tree w !! imageFunctionPath this = None ->
  imageMemorySize (imageOptimization (props this)) = Ok memory ->
  exists w',
    createImageOptimizationFunction this w = Ok (imageFunctionPath this, w') /\
    initialPolicyAt w' (imageFunctionPath this) =
      [ {| effect := ALLOW;
           actions := ["s3:GetObject"];
           resources := [ArnForObjects (bucket this) "*"] |} ] /\
    (forall key,
       grantsGetObject (initialPolicyAt w' (imageFunctionPath this)) (bucket this) key
         = true) /\
    (forall other key,
       other <> bucket this ->
       grantsGetObject (initialPolicyAt w' (imageFunctionPath this)) other key = false) /\
    (environmentAt w' (imageFunctionPath this) ≫= (fun env => env !! "BUCKET_KEY_PREFIX"))
      = Some (Literal "_assets").
Proof.
  intros Hfree Hmemory. eexists.
  split; [now apply createImageOptimizationFunction_fresh with (memory := memory)|].
  unfold initialPolicyAt, environmentAt. simpl. rewrite lookup_insert_eq. simpl.
  split; [reflexivity|]. split; [|split].
  - intros key. unfold grantsGetObject. simpl.
    rewrite bool_decide_eq_true_2 by reflexivity.
    now rewrite wildcardMatch_star.
  - intros other key Hother. unfold grantsGetObject. simpl.
    rewrite bool_decide_eq_false_2 by congruence. reflexivity.
  - reflexivity.
Qed.

Lemma image_function_storage_access_witness :
  exists w',
    @createImageOptimizationFunction Sample.siteBase Sample.regionalSite Sample.serverWorld
      = Ok (imageFunctionPath Sample.regionalSite, w') /\
    grantsGetObject (initialPolicyAt w' (imageFunctionPath Sample.regionalSite))
      Sample.bucketPath "_assets/logo.png" = true /\
    grantsGetObject (initialPolicyAt w' (imageFunctionPath Sample.regionalSite))
      Sample.bucketPath "_cache/index.html" = true.
Proof.
  destruct (@image_function_storage_access Sample.siteBase Sample.regionalSite
              Sample.serverWorld (number 1536))
    as (w' & Hrun & _ & Hall & _).
  - vm_compute. reflexivity.
  - reflexivity.
  - exists w'. split; [exact Hrun|]. split; apply Hall.
Defined.

(** ** The cache policy *)

(** C8: let the inherited method do what the spec says of it, that is
    forward the headers it is given into the cache key.  Then the policy
    [useServerBehaviorCachePolicy] returns has as cache-key headers [accept],
    [rsc], [next-router-prefetch], [next-router-state-tree] and [next-url],
    each once and nothing else; and an image behavior built without a
    caller-supplied policy carries a policy with exactly these cache-key
    headers. *)
Theorem cache_key_allow_list `{SsrSiteBase}
    (this : NextSite) (w w' : World) (p : CachePolicy) :
  forwardsAllowedHeaders ->
  useServerBehaviorCachePolicy this w = Ok (p, w') ->
  exists headers : list string,
    cacheKeyHeaders p = Some headers /\
    (forall h : string,
       h ∈ headers <->
       h = "accept" \/ h = "rsc" \/ h = "next-router-prefetch" \/
       h = "next-router-state-tree" \/ h = "next-url") /\
    NoDup headers /\
    length headers = 5 /\
    (forall (w1 w2 : World) (b : Behavior),
       cdk (props this) ≫= serverCachePolicy = None ->
       buildImageBehavior this w1 = Ok (b, w2) ->
       exists q, cachePolicy b = Some q /\ cacheKeyHeaders q = Some headers).
Proof.
  intros Hforwards Hrun.
  exists serverCacheHeaders.
  split; [exact (Hforwards this serverCacheHeaders w w' p Hrun)|].
  split; [|split; [|split]].
  - intros h. unfold serverCacheHeaders.
    rewrite !elem_of_cons, elem_of_nil. tauto.
  - unfold serverCacheHeaders.
    repeat (apply NoDup_cons; split;
            [rewrite ?elem_of_cons, elem_of_nil; intros Hin;
             repeat (destruct Hin as [Hin|Hin]; [discriminate Hin|]); exact Hin|]).
    apply NoDup_nil; exact I.
  - reflexivity.
  - intros w1 w2 b Hnone Himage.
    apply buildImageBehavior_inv in Himage as (_ & _ & _ & _ & _ & Hpolicy).
    rewrite Hnone in Hpolicy. destruct Hpolicy as (q & w3 & w4 & Hq & Hb).
    exists q. split; [exact Hb|].
    exact (Hforwards this serverCacheHeaders w3 w4 q Hq).
Qed.

Lemma cache_key_allow_list_witness :
  exists p,
    @useServerBehaviorCachePolicy Sample.siteBase Sample.regionalSite Sample.serverWorld
      = Ok (p, Sample.serverWorld) /\
    exists headers,
      cacheKeyHeaders p = Some headers /\
      length headers = 5 /\
      ("accept" ∈ headers <-> True) /\
      ("cookie" ∈ headers <-> False).
Proof.
  exists (ForwardingPolicy serverCacheHeaders). split; [reflexivity|].
  destruct (@cache_key_allow_list Sample.siteBase Sample.regionalSite
              Sample.serverWorld Sample.serverWorld
              (ForwardingPolicy serverCacheHeaders))
    as (headers & Hkey & Hexact & _ & Hlength & _).
  - intros this allowedHeaders w w' p Hp.
    simpl in Hp. unfold SsrSite_useServerBehaviorCachePolicy, ret in Hp.
    now inversion Hp.
  - reflexivity.
  - exists headers. split; [exact Hkey|]. split; [exact Hlength|].
    rewrite !Hexact. split.
    + split; [intros _; exact I | intros _; left; reflexivity].
    + split; [|intros []].
      intros Hin. repeat (destruct Hin as [Hin|Hin]; [discriminate Hin|]).
      discriminate Hin.
Defined.

(** ** Route tables *)

Lemma lookup_spreadObject {V : Type} (base over : gmap string V) (k : string) :
  spreadObject base over !! k =
    match over !! k with
    | Some v => Some v
    | None => base !! k
    end.
Proof.
  unfold spreadObject. rewrite lookup_union.
  destruct (over !! k), (base !! k); reflexivity.
Qed.

Section Routes.
Context `{SsrSiteBase}.

(** What a distribution is made of, in either topology, whenever its
    construction returns. *)
Lemma createCloudFrontDistribution_inv
    (topology : Topology) (this : NextSite) (w w' : World) (dist : path) :
  createCloudFrontDistribution topology this w = Ok (dist, w') ->
  exists (serverBehavior : Behavior) (w1 : World) (fixed : gmap string Behavior),
    buildDefaultBehavior topology this w = Ok (serverBehavior, w1) /\
    routeTable w' dist =
      Some (distributionLiteral (cfDistributionPropsOf this) serverBehavior fixed) /\
    fixed !! "api/*" = Some serverBehavior /\
    fixed !! "_next/data/*" = Some serverBehavior /\
    match topology with
    | Regional =>
        exists imageBehavior w2,
          buildImageBehavior this w1 = Ok (imageBehavior, w2) /\
          fixed !! "_next/image*" = Some imageBehavior
    | EdgeReplicated => fixed !! "_next/image*" = None
    end.
Proof.
  destruct topology; simpl; intros Hrun.
  - unfold createCloudFrontDistributionForRegional in Hrun.
    unfold andThen in Hrun at 1. inv_bind Hrun.
    unfold andThen in Hrun at 1. inv_bind Hrun.
    apply newDistribution_inv in Hrun as (-> & Hfree & Hdist & _).
    eexists _, _, _. split; [reflexivity|].
    unfold routeTable. rewrite Hdist. simpl.
    split; [reflexivity|].
    split; [reflexivity|]. split; [reflexivity|].
    eexists _, _. split; [exact Hstep0 | reflexivity].
  - unfold createCloudFrontDistributionForEdge in Hrun.
    unfold andThen in Hrun at 1. inv_bind Hrun.
    apply newDistribution_inv in Hrun as (-> & Hfree & Hdist & _).
    eexists _, _, _. split; [reflexivity|].
    unfold routeTable. rewrite Hdist. simpl.
    split; [reflexivity|].
    split; [reflexivity|]. split; reflexivity.
Qed.

Lemma routeOf_distributionLiteral
    (w : World) (dist : path) (this : NextSite)
    (serverBehavior : Behavior) (fixed : gmap string Behavior) (pattern : string) :
  routeTable w dist =
    Some (distributionLiteral (cfDistributionPropsOf this) serverBehavior fixed) ->
  routeOf w dist pattern =
    match behaviorOverrides this !! pattern with
    | Some b => Some b
    | None => fixed !! pattern
    end.
Proof.
  intros Htable. unfold routeOf. rewrite Htable. simpl.
  apply lookup_spreadObject.
Qed.

End Routes.

(** C4, as stated, fails for the edge topology: the caller's
    [additionalBehaviors] are spread into the route table in both topologies,
    so an edge site whose caller supplies a [_next/image*] behavior has one. *)
Lemma edge_has_no_image_behavior_fails : ~ edge_has_no_image_behavior.
Proof.
  intros Hclaim.
  specialize (Hclaim Sample.siteBase Sample.overriddenEdgeSite Sample.serverWorld
                (Sample.after (@createCloudFrontDistributionForEdge Sample.siteBase
                                 Sample.overriddenEdgeSite) Sample.serverWorld)
                (Sample.site ++ ["CDN"])).
  assert (Hroute : routeOf
            (Sample.after (@createCloudFrontDistributionForEdge Sample.siteBase
                             Sample.overriddenEdgeSite) Sample.serverWorld)
            (Sample.site ++ ["CDN"]) "_next/image*" = Some Sample.callerBehavior)
    by (vm_compute; reflexivity).
  rewrite Hclaim in Hroute; [discriminate Hroute|].
  vm_compute. reflexivity.
Qed.

(** C4, amended: in either topology a [_next/image*] behavior the caller
    supplies in [cdk.distribution.additionalBehaviors] is the one the route
    table has.  When the caller supplies none, the route table of the edge
    topology has no behavior for that pattern, and the route table of the
    regional topology routes it to the behavior [buildImageBehavior]
    returned, whose origin is the URL of the image function. *)
Theorem image_behavior_by_topology `{SsrSiteBase}
    (topology : Topology) (this : NextSite) (w w' : World) (dist : path) :
  createCloudFrontDistribution topology this w = Ok (dist, w') ->
  match behaviorOverrides this !! "_next/image*" with
  | Some callerBehavior => routeOf w' dist "_next/image*" = Some callerBehavior
  | None =>
      match topology with
      | EdgeReplicated => routeOf w' dist "_next/image*" = None
      | Regional =>
          exists imageBehavior w1 w2,
            buildImageBehavior this w1 = Ok (imageBehavior, w2) /\
            routeOf w' dist "_next/image*" = Some imageBehavior /\
            origin imageBehavior =
              HttpOrigin (ParseDomainName (FunctionUrl (imageFunctionPath this)))
      end
  end.
Proof.
  intros Hrun.
  apply createCloudFrontDistribution_inv in Hrun
    as (sb & w1 & fixed & _ & Htable & _ & _ & Himage).
  pose proof (routeOf_distributionLiteral _ _ _ _ _ "_next/image*" Htable) as Hroute.
  destruct (behaviorOverrides this !! "_next/image*") as [callerBehavior|].
  - exact Hroute.
  - destruct topology.
    + destruct Himage as (img & w2 & Himg & Hfixed).
      exists img, w1, w2. split; [exact Himg|].
      split; [now rewrite Hroute|].
      now apply buildImageBehavior_inv in Himg as (Horigin & _).
    + now rewrite Hroute.
Qed.

Lemma image_behavior_by_topology_witness :
  (exists imageBehavior,
     routeOf (Sample.after (@createCloudFrontDistributionForRegional Sample.siteBase
                              Sample.regionalSite) Sample.serverWorld)
       (Sample.site ++ ["CDN"]) "_next/image*" = Some imageBehavior /\
     origin imageBehavior =
       HttpOrigin (ParseDomainName (FunctionUrl (imageFunctionPath Sample.regionalSite)))) /\
  routeOf (Sample.after (@createCloudFrontDistributionForEdge Sample.siteBase
                           Sample.edgeSite) Sample.serverWorld)
    (Sample.site ++ ["CDN"]) "_next/image*" = None /\
  routeOf (Sample.after (@createCloudFrontDistributionForEdge Sample.siteBase
                           Sample.overriddenEdgeSite) Sample.serverWorld)
    (Sample.site ++ ["CDN"]) "_next/image*" = Some Sample.callerBehavior /\
  routeOf (Sample.after (@createCloudFrontDistributionForRegional Sample.siteBase
                           Sample.overriddenRegionalSite) Sample.serverWorld)
    (Sample.site ++ ["CDN"]) "_next/image*" = Some Sample.callerBehavior.
Proof.
  split; [|split; [|split]].
  - destruct (@image_behavior_by_topology Sample.siteBase Regional Sample.regionalSite
                Sample.serverWorld
                (Sample.after (@createCloudFrontDistributionForRegional Sample.siteBase
                                 Sample.regionalSite) Sample.serverWorld)
                (Sample.site ++ ["CDN"]))
      as (img & _ & _ & _ & Hroute & Horigin).
    + vm_compute. reflexivity.
    + exists img. split; [exact Hroute | exact Horigin].
  - apply (@image_behavior_by_topology Sample.siteBase EdgeReplicated Sample.edgeSite
             Sample.serverWorld).
    vm_compute. reflexivity.
  - apply (@image_behavior_by_topology Sample.siteBase EdgeReplicated
             Sample.overriddenEdgeSite Sample.serverWorld).
    vm_compute. reflexivity.
  - apply (@image_behavior_by_topology Sample.siteBase Regional
             Sample.overriddenRegionalSite Sample.serverWorld).
    vm_compute. reflexivity.
Defined.




(** ** A whole regional site *)

(** The regional sample site ends with a default behavior and three
    additional ones, a FIFO queue, and the two queue entries in the server
    function's environment next to those it was created with. *)
Example regional_site_end_to_end :
  (routeTable Sample.synthesized (Sample.site ++ ["CDN"]) ≫= defaultBehavior)
    = Some Sample.serverBehavior /\
  (dom <$> (routeTable Sample.synthesized (Sample.site ++ ["CDN"]) ≫= additionalBehaviors))
    = Some ({[ "api/*"; "_next/data/*"; "_next/image*" ]} : gset string) /\
  (exists q, tree Sample.synthesized !! revalidationQueuePath Sample.regionalSite
               = Some (QueueConstruct q) /\ fifo q = true) /\
  (dom <$> environmentAt Sample.synthesized Sample.serverPath)
    = Some ({[ "STAGE"; "CACHE_BUCKET_NAME"; "CACHE_BUCKET_KEY_PREFIX";
               "CACHE_BUCKET_REGION"; "SST_APP"; "SST_STAGE"; "SST_SSM_PREFIX";
               "REVALIDATION_QUEUE_URL"; "REVALIDATION_QUEUE_REGION" ]} : gset string).
Proof.
  split; [vm_compute; reflexivity|].
  split; [vm_compute; reflexivity|].
  split; [eexists; split; [vm_compute; reflexivity | reflexivity]|].
  vm_compute. reflexivity.
Qed.


(* ===================================================================== *)
(** * Part VI.  Further properties of the module                           *)
(* ===================================================================== *)

(** ** [createVersionInUsEast1] *)

(** X1: [createVersionInUsEast1] returns exactly when the id
    [`${this.node.id}EdgeLambdaVersion`] is free in [this.scope]; when the id
    is taken it throws the construct library's duplicate-name error for that
    path, whatever construct holds the id and whether or not the stack has a
    provider. *)
Theorem createVersionInUsEast1_returns_iff_free `{EdgeFunctionBase}
    (this : CustomEdgeFunction) (fn : path) (fnArn : Token) (w : World) :
  ((exists r w1, createVersionInUsEast1 this fn fnArn w = Ok (r, w1)) <->
   tree w !! versionPath this = None) /\
  (tree w !! versionPath this <> None ->
   createVersionInUsEast1 this fn fnArn w = Throw (AlreadyExists (versionPath this))).
Proof.
  split; [split|].
  - intros (r & w1 & Hrun). now apply createVersionInUsEast1_inv in Hrun as (Hfree & _).
  - intros Hfree. eexists _, _. now apply createVersionInUsEast1_fresh.
  - intros Htaken. apply createVersionInUsEast1_taken.
    destruct (tree w !! versionPath this); [eauto | contradiction].
Qed.

(** X2: a call that returns touches two places of the construct tree at
    most: the version resource it adds and, when the stack had none, the
    provider.  The two never coincide, not even when [this.scope] is the stack
    itself; every other construct, an existing provider and the deferred tasks
    are as before. *)
Theorem createVersionInUsEast1_frame `{EdgeFunctionBase}
    (this : CustomEdgeFunction) (fn : path) (fnArn : Token)
    (w w1 : World) (r : VersionRecord) :
  createVersionInUsEast1 this fn fnArn w = Ok (r, w1) ->
  version r <> providerPath (edge_stack this) /\
  (forall q, q <> version r -> q <> providerPath (edge_stack this) ->
             tree w1 !! q = tree w !! q) /\
  (forall c, tree w !! providerPath (edge_stack this) = Some c ->
             tree w1 !! providerPath (edge_stack this) = Some c) /\
  deferredTaskCallbacks w1 = deferredTaskCallbacks w.
Proof.
  intros Hrun.
  pose proof (createVersionInUsEast1_effect _ _ _ _ _ _ Hrun)
    as (Hkeep & Hframe & _ & _ & _ & _).
  apply createVersionInUsEast1_inv in Hrun as (Hfree & -> & ->). simpl.
  split; [apply versionPath_ne_providerPath|].
  split; [exact Hframe|].
  split; [intros c Hc; now apply Hkeep|].
  unfold withProvider. now destruct (tree w !! providerPath (edge_stack this)).
Qed.

Lemma createVersionInUsEast1_frame_witness :
  tree Sample.world3 !! (Sample.site ++ ["Server"])
    = tree Sample.world2 !! (Sample.site ++ ["Server"]) /\
  deferredTaskCallbacks Sample.world3 = deferredTaskCallbacks Sample.world2.
Proof.
  destruct (@createVersionInUsEast1_frame Sample.edgeBase Sample.serverEdge Sample.fn
              Sample.fnArn Sample.world2 Sample.world3 Sample.record1)
    as (_ & Hframe & _ & Htasks).
  - vm_compute. reflexivity.
  - split; [|exact Htasks]. apply Hframe.
    + intros E. vm_compute in E. discriminate E.
    + intros E. vm_compute in E. discriminate E.
Defined.

(** X3: the version's logical id is produced when it is resolved, from the
    function as it is then.  If the function is changed after
    [createVersionInUsEast1] has returned, the identifier resolved afterwards
    carries the hash of the changed function, on the same trimmed base;
    resolving leaves the tree as it is. *)
Theorem version_identifier_follows_function `{EdgeFunctionBase}
    (this : CustomEdgeFunction) (fn : path) (fnArn : Token)
    (w w1 : World) (r : VersionRecord)
    (l : LambdaFunction) (f : LambdaFunction -> LambdaFunction) :
  createVersionInUsEast1 this fn fnArn w = Ok (r, w1) ->
  tree w1 !! fn = Some (FunctionConstruct l) ->
  exists w2,
    updateFunction fn f w1 = Ok (tt, w2) /\
    resolveLogicalId (version r) w1 =
      Ok (versionIdentifier this (FunctionConstruct l), w1) /\
    resolveLogicalId (version r) w2 =
      Ok (versionIdentifier this (FunctionConstruct (f l)), w2).
Proof.
  intros Hrun Hfn.
  apply createVersionInUsEast1_inv in Hrun as (Hfree & -> & ->). simpl in *.
  assert (Hne : fn <> versionPath this).
  { intros ->. rewrite lookup_insert_eq in Hfn. discriminate Hfn. }
  eexists. split; [apply updateFunction_ok; exact Hfn|].
  split.
  - apply (resolveLogicalId_version this fn fnArn); [apply lookup_insert_eq | exact Hfn].
  - apply (resolveLogicalId_version this fn fnArn); simpl.
    + rewrite lookup_insert_ne by exact Hne. apply lookup_insert_eq.
    + apply lookup_insert_eq.
Qed.

Lemma version_identifier_follows_function_witness :
  exists w2,
    updateFunction Sample.fn Cases.touch Sample.world1 = Ok (tt, w2) /\
    @resolveLogicalId Sample.edgeBase (version Sample.record1) Sample.world1 =
      Ok ("AppStackSiteServerFunctionEdgeLambdaVersionDefault8A1B2C3D"
            +:+ "11111111111111111111111111111111", Sample.world1) /\
    @resolveLogicalId Sample.edgeBase (version Sample.record1) w2 =
      Ok ("AppStackSiteServerFunctionEdgeLambdaVersionDefault8A1B2C3D"
            +:+ "22222222222222222222222222222222", w2).
Proof.
  destruct (@version_identifier_follows_function Sample.edgeBase Sample.serverEdge
              Sample.fn Sample.fnArn Sample.world0 Sample.world1 Sample.record1
              (match Sample.lambda "v1" with
               | FunctionConstruct l => l
               | _ => Sample.serverFunction
               end) Cases.touch)
    as (w2 & Hupdate & Hbefore & Hafter).
  - vm_compute. reflexivity.
  - vm_compute. reflexivity.
  - exists w2. split; [exact Hupdate|]. split; [exact Hbefore | exact Hafter].
Defined.

Lemma withProvider_settled (stack v : path) (c : Construct) (w : World) :
  v <> providerPath stack ->
  withProvider stack (setTree (insert v c) (withProvider stack w))
    = setTree (insert v c) (withProvider stack w).
Proof.
  intros Hv. unfold withProvider at 1. simpl.
  rewrite lookup_insert_ne by congruence.
  destruct (tree (withProvider stack w) !! providerPath stack) eqn:Hp; [reflexivity|].
  exfalso. unfold withProvider in Hp.
  destruct (tree w !! providerPath stack) eqn:Hp0.
  - congruence.
  - simpl in Hp. rewrite lookup_insert_eq in Hp. discriminate Hp.
Qed.

(** X4: within one stack the order in which two edge functions are
    versioned does not matter: both orders return the two records and end in
    the same construct tree and task list. *)
Theorem createVersions_order_independent `{EdgeFunctionBase}
    (this1 this2 : CustomEdgeFunction) (fn1 fn2 : path) (fnArn1 fnArn2 : Token)
    (w : World) :
  edge_stack this1 = edge_stack this2 ->
  versionPath this1 <> versionPath this2 ->
  tree w !! versionPath this1 = None ->
  tree w !! versionPath this2 = None ->
  exists r1 r2 w',
    createVersions [ (this1, fn1, fnArn1); (this2, fn2, fnArn2) ] w = Ok ([r1; r2], w') /\
    createVersions [ (this2, fn2, fnArn2); (this1, fn1, fnArn1) ] w = Ok ([r2; r1], w').
Proof.
  intros Hstack Hne Hfree1 Hfree2.
  pose proof (versionPath_ne_providerPath this1 (edge_stack this1)) as Hp1.
  pose proof (versionPath_ne_providerPath this2 (edge_stack this1)) as Hp2.
  eexists _, _, _. split.
  - simpl. unfold andThen.
    rewrite (createVersionInUsEast1_fresh this1 fn1 fnArn1 w Hfree1).
    rewrite createVersionInUsEast1_fresh
      by (simpl; rewrite lookup_insert_ne by congruence;
          now rewrite lookup_withProvider_ne).
    rewrite <- Hstack. rewrite withProvider_settled by exact Hp1.
    reflexivity.
  - simpl. unfold andThen.
    rewrite (createVersionInUsEast1_fresh this2 fn2 fnArn2 w Hfree2).
    rewrite createVersionInUsEast1_fresh
      by (simpl; rewrite lookup_insert_ne by congruence;
          rewrite <- Hstack; now rewrite lookup_withProvider_ne).
    rewrite <- Hstack. rewrite withProvider_settled by exact Hp2.
    unfold ret, setTree. simpl. do 3 f_equal.
    apply insert_insert_ne. congruence.
Qed.

Lemma createVersions_order_independent_witness :
  exists r1 r2 w',
    @createVersions Sample.edgeBase
      [ (Sample.serverEdge, Sample.fn, Sample.fnArn);
        (Sample.signingEdge, Sample.fn, Sample.fnArn) ] Sample.world0 = Ok ([r1; r2], w') /\
    @createVersions Sample.edgeBase
      [ (Sample.signingEdge, Sample.fn, Sample.fnArn);
        (Sample.serverEdge, Sample.fn, Sample.fnArn) ] Sample.world0 = Ok ([r2; r1], w').
Proof.
  apply (@createVersions_order_independent Sample.edgeBase
           Sample.serverEdge Sample.signingEdge Sample.fn Sample.fn
           Sample.fnArn Sample.fnArn Sample.world0).
  - reflexivity.
  - intros E. vm_compute in E. discriminate E.
  - vm_compute. reflexivity.
  - vm_compute. reflexivity.
Defined.

(** ** The server functions *)

Lemma newFunction_fresh (cls : FunctionClass) (scope : path) (id : string)
    (p : FunctionProps) (w : World) :
  tree w !! (scope ++ [id]) = None ->
  newFunction cls scope id p w =
    Ok (scope ++ [id],
        setTree (insert (scope ++ [id])
                   (FunctionConstruct
                      {| fn_class := cls;
                         fn_props := p;
                         fn_environment := default ∅ (fieldValue (environment p));
                         fn_eventSources := [];
                         fn_functionUrl := None;
                         fn_permissions := [] |})) w).
Proof. intros Hfree. unfold newFunction. now apply newConstruct_fresh. Qed.

Lemma newFunction_taken (cls : FunctionClass) (scope : path) (id : string)
    (p : FunctionProps) (w : World) :
  tree w !! (scope ++ [id]) <> None ->
  newFunction cls scope id p w = Throw (AlreadyExists (scope ++ [id])).
Proof.
  intros Htaken. unfold newFunction, newConstruct.
  destruct (tree w !! (scope ++ [id])); [reflexivity | contradiction].
Qed.

Lemma newSsrFunction_fresh `{SstConstructs} (scope : path) (id : string)
    (p : FunctionProps) (w : World) :
  tree w !! (scope ++ [id]) = None ->
  newSsrFunction scope id p w =
    Ok (scope ++ [id],
        setTree (insert (scope ++ [id])
                   (FunctionConstruct
                      {| fn_class := SsrFunction;
                         fn_props := p;
                         fn_environment := SsrFunction_environment p;
                         fn_eventSources := [];
                         fn_functionUrl := None;
                         fn_permissions := [] |})) w).
Proof. intros Hfree. unfold newSsrFunction. now apply newConstruct_fresh. Qed.

Lemma newSsrFunction_taken `{SstConstructs} (scope : path) (id : string)
    (p : FunctionProps) (w : World) :
  tree w !! (scope ++ [id]) <> None ->
  newSsrFunction scope id p w = Throw (AlreadyExists (scope ++ [id])).
Proof.
  intros Htaken. unfold newSsrFunction, newConstruct.
  destruct (tree w !! (scope ++ [id])); [reflexivity | contradiction].
Qed.

(** The entries of the environment both server functions start from. *)
Lemma lookup_serverEnvironment (this : NextSite) (key : string) :
  serverEnvironment this !! key =
    if decide (key = "CACHE_BUCKET_REGION") then Some (Region (site_stack this))
    else if decide (key = "CACHE_BUCKET_KEY_PREFIX") then Some (Literal "_cache")
    else if decide (key = "CACHE_BUCKET_NAME") then Some (BucketName (bucket this))
    else default ∅ (props_environment (props this)) !! key.
Proof.
  unfold serverEnvironment.
  repeat (rewrite lookup_insert; case_decide; subst;
          [rewrite ?decide_True by reflexivity; try reflexivity
          |rewrite decide_False by congruence]).
  - reflexivity.
Qed.

(** X5: [createFunctionForEdge] returns whenever the id [ServerFunction] is
    free under the site, and the function it creates starts with the three
    cache-bucket entries set by the module: an entry of the same name in the
    caller's [environment] is replaced, every other caller entry is kept. *)
Theorem edge_server_environment (this : NextSite) (w : World) :
  tree w !! serverFunctionPath this = None ->
  exists w' env,
    createFunctionForEdge this w = Ok (serverFunctionPath this, w') /\
    environmentAt w' (serverFunctionPath this) = Some env /\
    env !! "CACHE_BUCKET_NAME" = Some (BucketName (bucket this)) /\
    env !! "CACHE_BUCKET_KEY_PREFIX" = Some (Literal "_cache") /\
    env !! "CACHE_BUCKET_REGION" = Some (Region (site_stack this)) /\
    (forall key, key ∉ cacheBucketKeys ->
       env !! key = default ∅ (props_environment (props this)) !! key).
Proof.
  intros Hfree. unfold serverFunctionPath in *.
  eexists _, (serverEnvironment this). split.
  { unfold createFunctionForEdge. now apply newFunction_fresh. }
  split.
  { unfold environmentAt. simpl. now rewrite lookup_insert_eq. }
  repeat split; try (rewrite lookup_serverEnvironment; reflexivity).
  intros key Hkey. rewrite lookup_serverEnvironment.
  unfold cacheBucketKeys in Hkey.
  repeat case_decide; subst; try reflexivity; exfalso; apply Hkey; set_solver.
Qed.

Lemma edge_server_environment_witness :
  exists w' env,
    createFunctionForEdge Cases.shadowingSite Sample.emptyWorld
      = Ok (Sample.serverPath, w') /\
    environmentAt w' Sample.serverPath = Some env /\
    env !! "CACHE_BUCKET_NAME" = Some (BucketName Sample.bucketPath) /\
    env !! "STAGE" = Some (Literal "dev").
Proof.
  destruct (edge_server_environment Cases.shadowingSite Sample.emptyWorld)
    as (w' & env & Hrun & Henv & Hname & _ & _ & Hrest).
  - vm_compute. reflexivity.
  - exists w', env. split; [exact Hrun|]. split; [exact Henv|]. split; [exact Hname|].
    rewrite Hrest; [vm_compute; reflexivity|].
    unfold cacheBucketKeys. intros Hin.
    apply elem_of_union in Hin as [Hin|Hin];
      [apply elem_of_union in Hin as [Hin|Hin]|];
      apply elem_of_singleton in Hin; discriminate Hin.
Defined.

(** X6: [createFunctionForRegional] returns whenever the id
    [ServerFunction] is free under the site, and hands [new SsrFunction] its
    own properties with [cdk.server] spread last; the function starts with
    the environment [SsrFunction] makes of the properties it is given.  The
    [environment] property handed over is that of [cdk.server] whenever
    [cdk.server] has the property, even with the value [undefined]: the
    cache-bucket entries are then there only if the override repeats them.
    Without the property in [cdk.server], it is the caller's entries with the
    three cache-bucket entries on top, as for the edge function. *)
Theorem regional_server_environment `{SstConstructs} (this : NextSite) (w : World) :
  tree w !! serverFunctionPath this = None ->
  exists w' given,
    createFunctionForRegional this w = Ok (serverFunctionPath this, w') /\
    functionPropsAt w' (serverFunctionPath this) = Some given /\
    environmentAt w' (serverFunctionPath this) = Some (SsrFunction_environment given) /\
    match environment (default noFunctionProps (cdk (props this) ≫= server)) with
    | Value override => environment given = Value override
    | Undefined => environment given = Undefined
    | Absent =>
        exists env,
          environment given = Value env /\
          env !! "CACHE_BUCKET_NAME" = Some (BucketName (bucket this)) /\
          env !! "CACHE_BUCKET_KEY_PREFIX" = Some (Literal "_cache") /\
          env !! "CACHE_BUCKET_REGION" = Some (Region (site_stack this)) /\
          (forall key, key ∉ cacheBucketKeys ->
             env !! key = default ∅ (props_environment (props this)) !! key)
    end.
Proof.
  intros Hfree. unfold serverFunctionPath in *.
  eexists _, _. split.
  { unfold createFunctionForRegional. now apply newSsrFunction_fresh. }
  split.
  { unfold functionPropsAt. simpl. rewrite lookup_insert_eq. reflexivity. }
  split.
  { unfold environmentAt. simpl. rewrite lookup_insert_eq. reflexivity. }
  cbn [environment spreadFunctionProps fn_props].
  destruct (environment (default noFunctionProps (cdk (props this) ≫= server)));
    cbn [spreadField]; try reflexivity.
  exists (serverEnvironment this). split; [reflexivity|].
  repeat split; try (rewrite lookup_serverEnvironment; reflexivity).
  intros key Hkey. rewrite lookup_serverEnvironment.
  unfold cacheBucketKeys in Hkey.
  repeat case_decide; subst; try reflexivity; exfalso; apply Hkey; set_solver.
Qed.

Lemma regional_server_environment_witness :
  exists w' given env,
    @createFunctionForRegional Sample.constructs Cases.replacingSite Sample.emptyWorld
      = Ok (Sample.serverPath, w') /\
    functionPropsAt w' Sample.serverPath = Some given /\
    environment given = Value {[ "ONLY" := Literal "this" ]} /\
    environmentAt w' Sample.serverPath = Some env /\
    env !! "ONLY" = Some (Literal "this") /\
    env !! "SST_APP" = Some (Literal "app") /\
    env !! "CACHE_BUCKET_NAME" = None.
Proof.
  destruct (@regional_server_environment Sample.constructs Cases.replacingSite
              Sample.emptyWorld)
    as (w' & given & Hrun & Hprops & Henv & Hoverride).
  - vm_compute. reflexivity.
  - exists w', given, (@SsrFunction_environment Sample.constructs given).
    split; [exact Hrun|]. split; [exact Hprops|].
    simpl in Hoverride. split; [exact Hoverride|]. split; [exact Henv|].
    simpl. rewrite Hoverride. simpl. repeat split.
Defined.

(** A caller who passes [environment: undefined] in [cdk.server] leaves the
    sample server function with the entries of SST alone. *)
Example cleared_server_environment :
  (dom <$> environmentAt
     (Sample.after (@createFunctionForRegional Sample.constructs Cases.clearingSite)
        Sample.emptyWorld) Sample.serverPath)
    = Some ({[ "SST_APP"; "SST_STAGE"; "SST_SSM_PREFIX" ]} : gset string).
Proof. vm_compute. reflexivity. Qed.

(** X7: the two server-function creators use the same construct id.  Once
    either of them has returned for a site, both throw the duplicate-name
    error for that site: a site cannot hold a regional and an edge server
    function made by these methods. *)
Theorem server_function_id_is_shared `{SstConstructs}
    (this : NextSite) (w w1 : World) (p : path) :
  createFunctionForRegional this w = Ok (p, w1) \/
  createFunctionForEdge this w = Ok (p, w1) ->
  p = serverFunctionPath this /\
  createFunctionForRegional this w1 = Throw (AlreadyExists p) /\
  createFunctionForEdge this w1 = Throw (AlreadyExists p).
Proof.
  intros Hrun.
  assert (Hp : p = serverFunctionPath this /\ tree w1 !! p <> None).
  { destruct Hrun as [Hrun|Hrun];
      unfold createFunctionForRegional, createFunctionForEdge, newFunction, newSsrFunction
        in Hrun;
      apply newConstruct_inv in Hrun as (-> & _ & ->);
      (split; [reflexivity|]); simpl; rewrite lookup_insert_eq; discriminate. }
  destruct Hp as [-> Htaken]. split; [reflexivity|].
  unfold serverFunctionPath in *.
  split; [unfold createFunctionForRegional; now apply newSsrFunction_taken|].
  unfold createFunctionForEdge. now apply newFunction_taken.
Qed.

Lemma server_function_id_is_shared_witness :
  createFunctionForEdge Sample.regionalSite Sample.serverWorld
    = Throw (AlreadyExists Sample.serverPath).
Proof.
  destruct (@server_function_id_is_shared Sample.constructs
              Sample.regionalSite Sample.emptyWorld
              Sample.serverWorld Sample.serverPath) as (_ & _ & Hedge).
  - left. vm_compute. reflexivity.
  - exact Hedge.
Defined.

(** ** [createRevalidation] *)









Lemma createRevalidation_queue_taken (this : NextSite) (w : World) (server : path) :
  renderCompute this = Some server ->
  tree w !! revalidationQueuePath this <> None ->
  createRevalidation this w = Throw (AlreadyExists (revalidationQueuePath this)).
Proof.
  intros Hserver Htaken. unfold renderCompute in Hserver. unfold createRevalidation.
  destruct (serverLambdaForRegional this) as [a|], (serverLambdaForEdge this) as [b|];
    simpl in Hserver; try discriminate.
  all: unfold andThen, newConstruct; fold (revalidationQueuePath this).
  all: destruct (tree w !! revalidationQueuePath this); [reflexivity | contradiction].
Qed.

Lemma createRevalidation_leaves_queue
    (this : NextSite) (w w' : World) (server : path) (u : unit) :
  renderCompute this = Some server ->
  createRevalidation this w = Ok (u, w') ->
  tree w' !! revalidationQueuePath this <> None.
Proof.
  intros Hserver Hrun. unfold renderCompute in Hserver. unfold createRevalidation in Hrun.
  destruct (serverLambdaForRegional this) as [a|], (serverLambdaForEdge this) as [b|];
    simpl in Hserver; try discriminate.
  all: unfold andThen in Hrun at 1; inv_bind Hrun.
  all: apply newConstruct_inv in Hstep as (-> & _ & _).
  all: fold (revalidationQueuePath this) in Hrun.
  all: unfold andThen in Hrun at 1; inv_bind Hrun.
  all: unfold andThen in Hrun at 1; inv_bind Hrun.
  all: unfold andThen in Hrun at 1; inv_bind Hrun.
  all: unfold andThen in Hrun at 1; inv_bind Hrun.
  all: unfold grantSendMessages in Hrun.
  all: destruct (tree _ !! revalidationQueuePath this) as [[| q | | |]|];
         simpl in Hrun; try discriminate Hrun.
  all: inversion Hrun; subst; simpl; rewrite lookup_insert_eq; discriminate.
Qed.

(** X11: [createRevalidation] cannot be run twice for a site with render
    compute.  After a run that returned, a second run throws the
    duplicate-name error for [RevalidationQueue] before it creates or changes
    anything; the same happens in any pass where that id is already taken. *)
Theorem createRevalidation_not_repeatable
    (this : NextSite) (w w' : World) (server : path) :
  renderCompute this = Some server ->
  createRevalidation this w = Ok (tt, w') ->
  createRevalidation this w' = Throw (AlreadyExists (revalidationQueuePath this)) /\
  forall w0, tree w0 !! revalidationQueuePath this <> None ->
             createRevalidation this w0 = Throw (AlreadyExists (revalidationQueuePath this)).
Proof.
  intros Hserver Hrun. split.
  - apply (createRevalidation_queue_taken this w' server Hserver).
    now apply (createRevalidation_leaves_queue this w w' server tt).
  - intros w0. now apply (createRevalidation_queue_taken this w0 server).
Qed.

Lemma createRevalidation_not_repeatable_witness :
  createRevalidation Sample.regionalSite
    (Sample.after (createRevalidation Sample.regionalSite) Sample.serverWorld)
  = Throw (AlreadyExists (revalidationQueuePath Sample.regionalSite)).
Proof.
  destruct (createRevalidation_not_repeatable Sample.regionalSite Sample.serverWorld
              (Sample.after (createRevalidation Sample.regionalSite) Sample.serverWorld)
              Sample.serverPath) as [Hagain _].
  - reflexivity.
  - vm_compute. reflexivity.
  - exact Hagain.
Defined.

(** ** The image function *)

(** X12: the image function is created with 1536 MB when
    [imageOptimization] or its [memorySize] is missing and also when the
    setting is falsy, that is the number 0, [NaN] or the empty string.  A
    truthy number is taken as it is, negative and fractional ones included.
    A non-empty string goes through [toCdkSize(..).toMebibytes()]: the
    function gets the result, and when the conversion throws so does the
    creation, with the conversion's error. *)
Theorem image_memory_size `{SsrSiteBase} (this : NextSite) (w : World) :
  tree w !! imageFunctionPath this = None ->
  match imageOptimization (props this) ≫= io_memorySize with
  | None => imageFunctionCreatedWith this w (number 1536)
  | Some (MemoryNumber n) =>
      imageFunctionCreatedWith this w (if truthyNumber n then n else number 1536)
  | Some (MemoryString s) =>
      if String.eqb s "" then imageFunctionCreatedWith this w (number 1536)
      else match toCdkSize_toMebibytes s with
           | Ok m => imageFunctionCreatedWith this w m
           | Throw e => createImageOptimizationFunction this w = Throw e
           end
  end.
Proof.
  intros Hfree.
  assert (Hcreated : forall m,
            imageMemorySize (imageOptimization (props this)) = Ok m ->
            imageFunctionCreatedWith this w m).
  { intros m Hm. unfold imageFunctionCreatedWith. eexists _, _.
    split; [now apply createImageOptimizationFunction_fresh with (memory := m)|].
    unfold functionPropsAt. simpl. rewrite lookup_insert_eq.
    split; reflexivity. }
  pose proof (createImageOptimizationFunction_invalid this w) as Hinvalid.
  unfold imageMemorySize in Hcreated, Hinvalid.
  destruct (imageOptimization (props this) ≫= io_memorySize) as [[s|n]|].
  - cbn [truthy] in Hcreated, Hinvalid.
    destruct (String.eqb s ""); cbn [negb] in Hcreated, Hinvalid.
    + now apply Hcreated.
    + destruct (toCdkSize_toMebibytes s) as [m|e].
      * now apply Hcreated.
      * now apply Hinvalid.
  - cbn [truthy] in Hcreated.
    destruct (truthyNumber n); now apply Hcreated.
  - now apply Hcreated.
Qed.

Lemma image_memory_size_witness :
  imageFunctionCreatedWith (base := Sample.siteBase) Cases.zeroMemorySite
    Sample.serverWorld (number 1536) /\
  imageFunctionCreatedWith (base := Sample.siteBase) Cases.nanMemorySite
    Sample.serverWorld (number 1536) /\
  imageFunctionCreatedWith (base := Sample.siteBase) Cases.negativeMemorySite
    Sample.serverWorld (number (-1)) /\
  imageFunctionCreatedWith (base := Sample.siteBase) Cases.stringMemorySite
    Sample.serverWorld (number 2048) /\
  @createImageOptimizationFunction Sample.siteBase Cases.junkMemorySite Sample.serverWorld
    = Throw (Inherited "Invalid size").
Proof.
  split; [|split; [|split; [|split]]].
  - apply (@image_memory_size Sample.siteBase Cases.zeroMemorySite Sample.serverWorld).
    vm_compute. reflexivity.
  - apply (@image_memory_size Sample.siteBase Cases.nanMemorySite Sample.serverWorld).
    vm_compute. reflexivity.
  - apply (@image_memory_size Sample.siteBase Cases.negativeMemorySite Sample.serverWorld).
    vm_compute. reflexivity.
  - apply (@image_memory_size Sample.siteBase Cases.stringMemorySite Sample.serverWorld).
    vm_compute. reflexivity.
  - apply (@image_memory_size Sample.siteBase Cases.junkMemorySite Sample.serverWorld).
    vm_compute. reflexivity.
Defined.

(** X13: when the image function is created (its id is free and its
    [memorySize] expression evaluates), it is declared with an inline
    placeholder as its code, and its creation registers one deferred task.
    Running that task replaces the code by the built asset
    [<site path>/.open-next/image-optimization-function] and changes nothing
    else: the function's policy, environment and memory and every other
    construct stay as they were. *)
Theorem image_code_is_patched_after_build `{SsrSiteBase}
    (this : NextSite) (w : World) (memory : JsNumber) :
  tree w !! imageFunctionPath this = None ->
  imageMemorySize (imageOptimization (props this)) = Ok memory ->
  exists w1 w2 task,
    createImageOptimizationFunction this w = Ok (imageFunctionPath this, w1) /\
    deferredTaskCallbacks w1 = deferredTaskCallbacks w ++ [task] /\
    (code <$> functionPropsAt w1 (imageFunctionPath this))
      = Some (Value (Code_fromInline "export function handler() {}")) /\
    runDeferredTask task w1 = Ok (tt, w2) /\
    (code <$> functionPropsAt w2 (imageFunctionPath this))
      = Some (Value (Code_fromAsset
                       [props_path (props this); ".open-next/image-optimization-function"])) /\
    initialPolicyAt w2 (imageFunctionPath this)
      = initialPolicyAt w1 (imageFunctionPath this) /\
    environmentAt w2 (imageFunctionPath this)
      = environmentAt w1 (imageFunctionPath this) /\
    (memorySize <$> functionPropsAt w2 (imageFunctionPath this))
      = Some (Value (MemoryNumber memory)) /\
    (forall q, q <> imageFunctionPath this -> tree w2 !! q = tree w1 !! q) /\
    deferredTaskCallbacks w2 = deferredTaskCallbacks w1.
Proof.
  intros Hfree Hmemory. eexists _, _, _.
  split; [now apply createImageOptimizationFunction_fresh with (memory := memory)|].
  split; [reflexivity|].
  split; [unfold functionPropsAt; simpl; now rewrite lookup_insert_eq|].
  split.
  { simpl. unfold updateImageFunctionCode.
    apply updateFunction_ok. simpl. apply lookup_insert_eq. }
  unfold functionPropsAt, initialPolicyAt, environmentAt. simpl.
  rewrite !lookup_insert_eq. simpl.
  repeat split.
  intros q Hq. now rewrite !lookup_insert_ne by congruence.
Qed.

Lemma image_code_is_patched_after_build_witness :
  exists w1 w2 task,
    @createImageOptimizationFunction Sample.siteBase Sample.regionalSite Sample.serverWorld
      = Ok (imageFunctionPath Sample.regionalSite, w1) /\
    runDeferredTask task w1 = Ok (tt, w2) /\
    (code <$> functionPropsAt w2 (imageFunctionPath Sample.regionalSite))
      = Some (Value (Code_fromAsset ["web"; ".open-next/image-optimization-function"])) /\
    tree w2 !! Sample.serverPath = tree w1 !! Sample.serverPath.
Proof.
  destruct (@image_code_is_patched_after_build Sample.siteBase Sample.regionalSite
              Sample.serverWorld (number 1536))
    as (w1 & w2 & task & Hrun & _ & _ & Htask & Hcode & _ & _ & _ & Hframe & _).
  - vm_compute. reflexivity.
  - reflexivity.
  - exists w1, w2, task. split; [exact Hrun|]. split; [exact Htask|].
    split; [exact Hcode|]. apply Hframe.
    intros E. vm_compute in E. discriminate E.
Defined.

(** ** The image behavior *)

(** X14: the image behavior carries an edge function exactly when
    [regional.enableServerUrlIamAuth] is set.  Then it has one association,
    on origin requests and with the body included, to the current version of
    the signing function the inherited method returned, and that function has
    been allowed [lambda:InvokeFunctionUrl] on the image function; otherwise
    the behavior has no edge function. *)
Theorem image_behavior_signing `{SsrSiteBase}
    (this : NextSite) (w w' : World) (b : Behavior) :
  buildImageBehavior this w = Ok (b, w') ->
  if serverUrlIamAuth this
  then exists fn,
         edgeLambdas b =
           [ {| includeBody := true;
                eventType := ORIGIN_REQUEST;
                functionVersion := CurrentVersion fn |} ] /\
         invokeImageFunctionUrl this ∈ permissionsAt w' fn
  else edgeLambdas b = [].
Proof.
  unfold buildImageBehavior. intros Hrun.
  unfold andThen in Hrun at 1. inv_bind Hrun.
  apply createImageOptimizationFunction_inv in Hstep as (-> & _ & _).
  unfold andThen in Hrun at 1. inv_bind Hrun.
  unfold andThen in Hrun at 1. inv_bind Hrun.
  unfold andThen in Hrun at 1. inv_bind Hrun.
  unfold ret in Hrun. inversion Hrun; subst b w'. simpl.
  destruct (serverUrlIamAuth this).
  - unfold andThen in Hstep1 at 1. inv_bind Hstep1.
    unfold andThen in Hstep1 at 1. inv_bind Hstep1.
    unfold ret in Hstep1. inversion Hstep1; subst.
    eexists. split; [reflexivity|].
    match goal with
    | Hattach : attachPermissions _ _ _ = Ok _ |- _ =>
        unfold attachPermissions in Hattach;
        apply updateFunction_inv in Hattach as (signer & Hsigner & ->)
    end.
    unfold permissionsAt. simpl. rewrite lookup_insert_eq. simpl.
    apply elem_of_app. right. apply list_elem_of_singleton. reflexivity.
  - unfold ret in Hstep1. now inversion Hstep1.
Qed.

Lemma image_behavior_signing_witness :
  exists b w' fn,
    @buildImageBehavior Sample.siteBase Cases.signedSite Sample.serverWorld = Ok (b, w') /\
    edgeLambdas b =
      [ {| includeBody := true;
           eventType := ORIGIN_REQUEST;
           functionVersion := CurrentVersion fn |} ] /\
    invokeImageFunctionUrl Cases.signedSite ∈ permissionsAt w' fn.
Proof.
  destruct (@buildImageBehavior Sample.siteBase Cases.signedSite Sample.serverWorld)
    as [[b w']|e] eqn:Hrun; [|vm_compute in Hrun; discriminate Hrun].
  pose proof (@image_behavior_signing Sample.siteBase Cases.signedSite
                Sample.serverWorld w' b Hrun) as Hsigned.
  simpl in Hsigned. destruct Hsigned as (fn & Hlambdas & Hperm).
  exists b, w', fn. split; [reflexivity|]. split; [exact Hlambdas | exact Hperm].
Defined.



(** ** The distributions *)

Section Distributions.
Context `{SsrSiteBase}.

(** The construct a distribution creator adds, in either topology. *)
Lemma createCloudFrontDistribution_construct
    (topology : Topology) (this : NextSite) (w w' : World) (dist : path) :
  createCloudFrontDistribution topology this w = Ok (dist, w') ->
  dist = cdnPath this /\
  exists (serverBehavior : Behavior) (w1 w2 : World) (fixed : gmap string Behavior),
    buildDefaultBehavior topology this w = Ok (serverBehavior, w1) /\
    tree w2 !! cdnPath this = None /\
    tree w' !! cdnPath this =
      Some (DistributionConstruct
              {| scopeOverride := site_node this;
                 dist_customDomain := customDomain (props this);
                 cdk_distribution :=
                   distributionLiteral (cfDistributionPropsOf this)
                     serverBehavior fixed |}) /\
    dom fixed = fixedPatterns topology /\
    match topology with
    | Regional => exists imageBehavior, buildImageBehavior this w1 = Ok (imageBehavior, w2)
    | EdgeReplicated => w2 = w1
    end.
Proof.
  destruct topology; simpl; intros Hrun.
  - unfold createCloudFrontDistributionForRegional in Hrun.
    unfold andThen in Hrun at 1. inv_bind Hrun.
    unfold andThen in Hrun at 1. inv_bind Hrun.
    apply newDistribution_inv in Hrun as (-> & Hfree & Hdist & _).
    split; [reflexivity|].
    eexists _, _, _, _. split; [reflexivity|]. split; [exact Hfree|].
    split; [exact Hdist|].
    split; [rewrite !dom_insert_L, dom_empty_L; set_solver|].
    eexists. eassumption.
  - unfold createCloudFrontDistributionForEdge in Hrun.
    unfold andThen in Hrun at 1. inv_bind Hrun.
    apply newDistribution_inv in Hrun as (-> & Hfree & Hdist & _).
    split; [reflexivity|].
    eexists _, _, _, _. split; [reflexivity|]. split; [exact Hfree|].
    split; [exact Hdist|].
    split; [rewrite !dom_insert_L, dom_empty_L; set_solver|].
    reflexivity.
Qed.

End Distributions.

(** X17: the path patterns of a distribution's additional behaviors are
    exactly the caller's patterns together with the fixed ones: [api/*] and
    [_next/data/*] in both topologies, and [_next/image*] in the regional
    one.  No fixed pattern can be removed through [cdk.distribution], and no
    other pattern appears. *)
Theorem distribution_patterns `{SsrSiteBase}
    (topology : Topology) (this : NextSite) (w w' : World) (dist : path) :
  createCloudFrontDistribution topology this w = Ok (dist, w') ->
  exists behaviors,
    (routeTable w' dist ≫= additionalBehaviors) = Some behaviors /\
    dom behaviors = dom (behaviorOverrides this) ∪ fixedPatterns topology.
Proof.
  intros Hrun.
  apply createCloudFrontDistribution_construct in Hrun
    as (-> & sb & w1 & w2 & fixed & _ & _ & Hdist & Hdom & _).
  eexists. split.
  { unfold routeTable. rewrite Hdist. reflexivity. }
  unfold spreadObject, behaviorOverrides. now rewrite dom_union_L, Hdom.
Qed.

Lemma distribution_patterns_witness :
  exists behaviors,
    (routeTable (Sample.after (@createCloudFrontDistributionForEdge Sample.siteBase
                                 Sample.overriddenEdgeSite) Sample.serverWorld)
       (Sample.site ++ ["CDN"]) ≫= additionalBehaviors) = Some behaviors /\
    dom behaviors = {[ "api/*"; "_next/data/*"; "_next/image*" ]}.
Proof.
  destruct (@distribution_patterns Sample.siteBase EdgeReplicated
              Sample.overriddenEdgeSite Sample.serverWorld
              (Sample.after (@createCloudFrontDistributionForEdge Sample.siteBase
                               Sample.overriddenEdgeSite) Sample.serverWorld)
              (Sample.site ++ ["CDN"]))
    as (behaviors & Hbehaviors & Hdom).
  - vm_compute. reflexivity.
  - exists behaviors. split; [exact Hbehaviors|]. rewrite Hdom.
    vm_compute. reflexivity.
Defined.
